(** * RevoluteJoint: a shallow embedding of
    [multibody/multibody_tree/joints/revolute_joint.h]

    The joint class is a template over the scalar [T] ([double] or
    [AutoDiffXd]).  Its axis is a [Vector3<double>] whatever [T] is; angles,
    rates and torques are [T]s that live in containers owned by the caller
    (the context and the force accumulator).  Every [DRAKE_DEMAND] of the
    header is modelled as an abort carrying a tag that says which demand
    failed; code that mutates a container through a pointer is written in a
    state-and-abort monad that keeps the container as it was when the abort
    happened. *)

From Stdlib Require Import Floats ZArith String.
From stdpp Require Import base list.

Local Open Scope string_scope.

(** ** Scalars *)

(** [double]: IEEE 754 binary64, the kernel's primitive floats. *)
Definition double : Type := float.

(** [std::numeric_limits<double>::epsilon()], that is 2^-52. *)
Definition kEpsilon : double := 0x1p-52%float.

(** [AutoDiffXd]: Eigen's [AutoDiffScalar<VectorXd>], a value and the vector
    of its partial derivatives. *)
Record AutoDiffXd : Type := mkAutoDiffXd {
  value : double;
  derivatives : list double
}.

(** What the header needs of the scalar [T]: the zero a fresh force
    accumulator is filled with and the sum that [+=] computes. *)
Class Scalar (T : Type) : Type := {
  scalar_zero : T;
  scalar_add : T -> T -> T
}.

#[export] Instance double_Scalar : Scalar double := {|
  scalar_zero := 0%float;
  scalar_add := PrimFloat.add
|}.

(** ** Eigen's [Vector3] and the three operations the constructor uses *)

Record Vector3 (A : Type) : Type := mkVector3 { vx : A; vy : A; vz : A }.
Arguments mkVector3 {A} _ _ _.
Arguments vx {A} _.
Arguments vy {A} _.
Arguments vz {A} _.

(** [internal::isMuchSmallerThan(x, y, prec)]: [abs(x) <= abs(y) * prec]. *)
Definition isMuchSmallerThan (x y prec : double) : bool :=
  (abs x <=? abs y * prec)%float.

(** [DenseBase::isZero(prec)]: every coefficient is much smaller than 1. *)
Definition isZero (v : Vector3 double) (prec : double) : bool :=
  isMuchSmallerThan (vx v) 1%float prec
  && isMuchSmallerThan (vy v) 1%float prec
  && isMuchSmallerThan (vz v) 1%float prec.

(** [MatrixBase::squaredNorm()]: the sum of the squared coefficients (the
    order of the two additions only matters to the last bit). *)
Definition squaredNorm (v : Vector3 double) : double :=
  (vx v * vx v + vy v * vy v + vz v * vz v)%float.

(** [MatrixBase::norm()]. *)
Definition norm (v : Vector3 double) : double := PrimFloat.sqrt (squaredNorm v).

(** [MatrixBase::normalized()]: the quotient of the vector by its own norm;
    a vector whose squared norm is not positive is returned as it is. *)
Definition normalized (v : Vector3 double) : Vector3 double :=
  let z := squaredNorm v in
  if (0 <? z)%float
  then let n := PrimFloat.sqrt z in
       mkVector3 (vx v / n)%float (vy v / n)%float (vz v / n)%float
  else v.

(** ** Aborts and the two monads *)

(** Which check stopped the program. *)
Inductive Error : Type :=
| DegenerateConstruction  (* DRAKE_DEMAND(!axis.isZero(kEpsilon)) *)
| UnboundAccess           (* the joint has no implementation yet *)
| SizeMismatch            (* a container does not fit the owning tree *)
| MissingFrame            (* no frame of that name in the cloned tree *)
| NullPointer             (* DRAKE_DEMAND(forces != nullptr) *)
| InvalidDof              (* DRAKE_DEMAND(joint_dof == 0) *)
| UnexpectedImplementation (* the two demands of get_mobilizer *)
| NotMultibodyTreeContext. (* std::logic_error of the context access *)

Inductive Result (A : Type) : Type :=
| Ok (a : A)
| Abort (e : Error).
Arguments Ok {A} _.
Arguments Abort {A} _.

Definition Result_bind {A B} (r : Result A) (k : A -> Result B) : Result B :=
  match r with
  | Ok a => k a
  | Abort e => Abort e
  end.

(** A method that works on a container of type [S] through a pointer: it
    returns the container as it leaves it, also when it aborts. *)
Definition M (S A : Type) : Type := S -> S * Result A.

Definition M_ret {S A} (a : A) : M S A := fun s => (s, Ok a).

Definition M_bind {S A B} (m : M S A) (k : A -> M S B) : M S B :=
  fun s =>
    match m s with
    | (s', Ok a) => k a s'
    | (s', Abort e) => (s', Abort e)
    end.

Definition M_get {S} : M S S := fun s => (s, Ok s).
Definition M_lift {S A} (r : Result A) : M S A := fun s => (s, r).

(** [DRAKE_DEMAND(condition)]. *)
Definition DRAKE_DEMAND {S} (condition : bool) (e : Error) : M S unit :=
  fun s => if condition then (s, Ok tt) else (s, Abort e).

Declare Scope result_scope.
Declare Scope method_scope.
Delimit Scope result_scope with result.
Delimit Scope method_scope with method.

Notation "x <- r ;; k" := (Result_bind r (fun x => k))
  (at level 100, r at next level, right associativity) : result_scope.
Notation "x <- m ;; k" := (M_bind m (fun x => k))
  (at level 100, m at next level, right associativity) : method_scope.
Notation "m ;; k" := (M_bind m (fun _ => k))
  (at level 100, right associativity) : method_scope.

(** ** Frames, mobilizers, trees and the containers *)

(** A frame: a named reference attached to a body. *)
Record Frame : Type := mkFrame {
  frame_name : string;
  frame_body : nat
}.

(** Where a mobilizer's coordinates start in the position vector, the
    velocity vector and the generalized-force vector of its tree. *)
Record MobilizerTopology : Type := mkMobilizerTopology {
  positions_start : nat;
  velocities_start : nat
}.

(** [RevoluteMobilizer]: frames and axis from its constructor, the topology
    from the tree's finalize pass. *)
Record RevoluteMobilizer : Type := mkRevoluteMobilizer {
  inboard_frame : Frame;
  outboard_frame : Frame;
  axis_F : Vector3 double;
  topology_ : option MobilizerTopology
}.

(** [Mobilizer*]: what [dynamic_cast<const RevoluteMobilizer<T>*>] is
    applied to.  [OtherMobilizer] stands for every other subclass. *)
Inductive Mobilizer : Type :=
| IsRevoluteMobilizer (m : RevoluteMobilizer)
| OtherMobilizer (inboard outboard : Frame) (topology : option MobilizerTopology).

Definition dynamic_cast_RevoluteMobilizer (m : Mobilizer) : option RevoluteMobilizer :=
  match m with
  | IsRevoluteMobilizer r => Some r
  | OtherMobilizer _ _ _ => None
  end.

(** [Joint<T>::BluePrint] and [Joint<T>::JointImplementation]. *)
Record BluePrint : Type := mkBluePrint {
  blueprint_mobilizers_ : list Mobilizer
}.

Record JointImplementation : Type := mkJointImplementation {
  mobilizers_ : list Mobilizer
}.

Definition get_num_mobilizers (impl : JointImplementation) : nat :=
  length (mobilizers_ impl).

(** What the header reads of [MultibodyTree]: the sizes of its state and the
    frames it owns. *)
Record MultibodyTree : Type := mkMultibodyTree {
  num_positions : nat;
  num_velocities : nat;
  tree_frames : list Frame
}.

(** [systems::Context<T>]: the context of a multibody tree, holding the
    generalized positions and velocities, or the context of some other
    system. *)
Inductive Context (T : Type) : Type :=
| MultibodyTreeContext (q v : list T)
| OtherContext (x : list T).
Arguments MultibodyTreeContext {T} _ _.
Arguments OtherContext {T} _.

(** [MultibodyForces<T>]: the generalized forces, one per velocity. *)
Record MultibodyForces (T : Type) : Type := mkMultibodyForces {
  generalized_forces : list T
}.
Arguments mkMultibodyForces {T} _.
Arguments generalized_forces {T} _.

(** [Eigen::VectorBlock]: a window of [block_size] entries that starts at
    [block_start] in the vector it was taken from. *)
Record VectorBlock : Type := mkVectorBlock {
  block_start : nat;
  block_size : nat
}.

(** [RevoluteJoint<T>].  The first five fields are those of the base class
    [Joint<T>]; [parent_tree_] is set when the joint is added to a tree and
    [implementation_] when that tree is finalized. *)
Record RevoluteJoint (T : Type) : Type := mkRevoluteJoint {
  name_ : string;
  frame_on_parent_ : Frame;
  frame_on_child_ : Frame;
  parent_tree_ : option MultibodyTree;
  implementation_ : option JointImplementation;
  axis_ : Vector3 double
}.
Arguments mkRevoluteJoint {T} _ _ _ _ _ _.
Arguments name_ {T} _.
Arguments frame_on_parent_ {T} _.
Arguments frame_on_child_ {T} _.
Arguments parent_tree_ {T} _.
Arguments implementation_ {T} _.
Arguments axis_ {T} _.

(** ** Code of the repository that the header calls *)

Section Collaborators.
Context {T : Type} `{Scalar T}.

Local Open Scope result_scope.

(** Modelled from the spec: [MultibodyTreeElement::get_parent_tree], whose
    definition is not in the sources.  A joint that no tree owns yet is not
    finalized, and a force-dependent operation on it is an unbound access. *)
Definition get_parent_tree (j : RevoluteJoint T) : Result MultibodyTree :=
  match parent_tree_ j with
  | Some tree => Ok tree
  | None => Abort UnboundAccess
  end.

(** Modelled from the spec: [Joint<T>::get_implementation], whose definition
    is not in the sources.  The implementation exists once the tree has been
    finalized; asking for it before that is the unbound-access error. *)
Definition get_implementation (j : RevoluteJoint T) : Result JointImplementation :=
  match implementation_ j with
  | Some impl => Ok impl
  | None => Abort UnboundAccess
  end.

(** Modelled from the spec: [MultibodyForces<T>::CheckHasRightSizeForModel],
    whose definition is not in the sources: the accumulator is sized
    exactly for the owning mechanism. *)
Definition CheckHasRightSizeForModel (forces : MultibodyForces T)
    (model : MultibodyTree) : bool :=
  bool_decide (length (generalized_forces forces) = num_velocities model).

(** Modelled from the spec: the constructor of [MultibodyForces<T>], whose
    definition is not in the sources: a zeroed accumulator sized for the
    mechanism. *)
Definition MultibodyForces_new (model : MultibodyTree) : MultibodyForces T :=
  mkMultibodyForces (replicate (num_velocities model) scalar_zero).

(** Modelled from the spec: the constructor of [RevoluteMobilizer<T>], whose
    definition is not in the sources: built from the frame references and
    the axis; its offsets are assigned later, at finalize. *)
Definition RevoluteMobilizer_new (frame_on_parent frame_on_child : Frame)
    (axis : Vector3 double) : RevoluteMobilizer :=
  mkRevoluteMobilizer frame_on_parent frame_on_child axis None.

(** Modelled from the spec: [RevoluteMobilizer<T>::get_angle], whose
    definition is not in the sources: a pure read of the state container at
    the mobilizer's pre-assigned offset.  The header's comment adds that a
    context that is not a multibody tree's leads to a [std::logic_error];
    a container too small for the offset is the size-mismatch error. *)
Definition RevoluteMobilizer_get_angle (m : RevoluteMobilizer)
    (context : Context T) : Result T :=
  match context with
  | OtherContext _ => Abort NotMultibodyTreeContext
  | MultibodyTreeContext q _ =>
      match topology_ m with
      | None => Abort UnboundAccess
      | Some topology =>
          match q !! positions_start topology with
          | Some angle => Ok angle
          | None => Abort SizeMismatch
          end
      end
  end.

(** Modelled from the spec: [RevoluteMobilizer<T>::set_angle], the write
    that goes with [get_angle]; the value is stored without validation. *)
Definition RevoluteMobilizer_set_angle (m : RevoluteMobilizer) (angle : T)
    : M (Context T) unit :=
  fun context =>
    match context with
    | OtherContext _ => (context, Abort NotMultibodyTreeContext)
    | MultibodyTreeContext q v =>
        match topology_ m with
        | None => (context, Abort UnboundAccess)
        | Some topology =>
            if bool_decide (positions_start topology < length q)
            then (MultibodyTreeContext (<[positions_start topology := angle]> q) v, Ok tt)
            else (context, Abort SizeMismatch)
        end
    end.

(** Modelled from the spec: [RevoluteMobilizer<T>::get_angular_rate], the
    same read in the velocity vector. *)
Definition RevoluteMobilizer_get_angular_rate (m : RevoluteMobilizer)
    (context : Context T) : Result T :=
  match context with
  | OtherContext _ => Abort NotMultibodyTreeContext
  | MultibodyTreeContext _ v =>
      match topology_ m with
      | None => Abort UnboundAccess
      | Some topology =>
          match v !! velocities_start topology with
          | Some theta_dot => Ok theta_dot
          | None => Abort SizeMismatch
          end
      end
  end.

(** Modelled from the spec: [RevoluteMobilizer<T>::set_angular_rate]. *)
Definition RevoluteMobilizer_set_angular_rate (m : RevoluteMobilizer)
    (theta_dot : T) : M (Context T) unit :=
  fun context =>
    match context with
    | OtherContext _ => (context, Abort NotMultibodyTreeContext)
    | MultibodyTreeContext q v =>
        match topology_ m with
        | None => (context, Abort UnboundAccess)
        | Some topology =>
            if bool_decide (velocities_start topology < length v)
            then (MultibodyTreeContext q (<[velocities_start topology := theta_dot]> v), Ok tt)
            else (context, Abort SizeMismatch)
        end
    end.

(** Modelled from the spec:
    [Mobilizer<T>::get_mutable_generalized_forces_from_array], whose
    definition is not in the sources: the window of the mobilizer's one
    degree of freedom in the array of generalized forces, a size mismatch
    when the array does not reach that far. *)
Definition get_mutable_generalized_forces_from_array (m : RevoluteMobilizer)
    (array : list T) : Result VectorBlock :=
  match topology_ m with
  | None => Abort UnboundAccess
  | Some topology =>
      if bool_decide (velocities_start topology + 1 <= length array)
      then Ok (mkVectorBlock (velocities_start topology) 1)
      else Abort SizeMismatch
  end.

(** [tau_mob(i) += tau] on the array the block was taken from.  Eigen checks
    the index against the block's size. *)
Definition VectorBlock_add_at (block : VectorBlock) (i : Z) (tau : T)
    : M (list T) unit :=
  fun array =>
    if bool_decide (0 <= i < Z.of_nat (block_size block))%Z
    then
      let k := block_start block + Z.to_nat i in
      match array !! k with
      | Some old => (<[k := scalar_add old tau]> array, Ok tt)
      | None => (array, Abort SizeMismatch)
      end
    else (array, Abort SizeMismatch).

(** A method on the array behind [forces->mutable_generalized_forces()],
    run on the accumulator that holds the array. *)
Definition on_mutable_generalized_forces {A : Type} (m : M (list T) A)
    : M (MultibodyForces T) A :=
  fun forces =>
    let '(array, r) := m (generalized_forces forces) in
    (mkMultibodyForces array, r).

End Collaborators.


(** ** The header: [RevoluteJoint<T>] *)

Section RevoluteJoint.
Context {T : Type} `{Scalar T}.

(** The constructor: the joint is not owned by a tree and has no
    implementation yet. *)
Definition RevoluteJoint_new (name : string)
    (frame_on_parent frame_on_child : Frame) (axis : Vector3 double)
    : Result (RevoluteJoint T) :=
  if negb (isZero axis kEpsilon)
  then Ok (mkRevoluteJoint name frame_on_parent frame_on_child None None
             (normalized axis))
  else Abort DegenerateConstruction.

Definition get_name (j : RevoluteJoint T) : string := name_ j.
Definition get_frame_on_parent (j : RevoluteJoint T) : Frame := frame_on_parent_ j.
Definition get_frame_on_child (j : RevoluteJoint T) : Frame := frame_on_child_ j.

Definition get_revolute_axis (j : RevoluteJoint T) : Vector3 double := axis_ j.

(** [get_mobilizer]: the implementation has exactly one mobilizer and it is
    a revolute one. *)
Definition get_mobilizer (j : RevoluteJoint T) : Result RevoluteMobilizer :=
  (impl <- get_implementation j ;;
   if negb (get_num_mobilizers impl =? 1)%nat then Abort UnexpectedImplementation
   else
     match mobilizers_ impl !! 0 with
     | None => Abort UnexpectedImplementation
     | Some mobilizer0 =>
         match dynamic_cast_RevoluteMobilizer mobilizer0 with
         | Some mobilizer => Ok mobilizer
         | None => Abort UnexpectedImplementation
         end
     end)%result.

Definition get_angle (j : RevoluteJoint T) (context : Context T) : Result T :=
  (mobilizer <- get_mobilizer j ;;
   RevoluteMobilizer_get_angle mobilizer context)%result.

(** [set_angle] returns [*this]. *)
Definition set_angle (j : RevoluteJoint T) (angle : T)
    : M (Context T) (RevoluteJoint T) :=
  (mobilizer <- M_lift (get_mobilizer j) ;;
   RevoluteMobilizer_set_angle mobilizer angle ;;
   M_ret j)%method.

Definition get_angular_rate (j : RevoluteJoint T) (context : Context T) : Result T :=
  (mobilizer <- get_mobilizer j ;;
   RevoluteMobilizer_get_angular_rate mobilizer context)%result.

Definition set_angular_rate (j : RevoluteJoint T) (angle : T)
    : M (Context T) (RevoluteJoint T) :=
  (mobilizer <- M_lift (get_mobilizer j) ;;
   RevoluteMobilizer_set_angular_rate mobilizer angle ;;
   M_ret j)%method.

Definition do_get_num_dofs (j : RevoluteJoint T) : Z := 1.

(** [Joint<T>::num_dofs], the public face of [do_get_num_dofs]. *)
Definition num_dofs (j : RevoluteJoint T) : Z := do_get_num_dofs j.

(** [DoAddInOneForce]: the context is not read. *)
Definition DoAddInOneForce (j : RevoluteJoint T) (context : Context T)
    (joint_dof : Z) (joint_tau : T) : M (MultibodyForces T) unit :=
  (DRAKE_DEMAND (joint_dof =? 0)%Z InvalidDof ;;
   mobilizer <- M_lift (get_mobilizer j) ;;
   forces <- M_get ;;
   tau_mob <- M_lift (get_mutable_generalized_forces_from_array mobilizer
                        (generalized_forces forces)) ;;
   on_mutable_generalized_forces
     (VectorBlock_add_at tau_mob joint_dof joint_tau))%method.

(** Modelled from the spec: [Joint<T>::AddInOneForce], the public entry that
    the private override is called through; its definition is not in the
    sources.  It checks its arguments (the header's comment on the override
    says so): the degree of freedom is one of the joint's, the accumulator
    is sized for the owning mechanism. *)
Definition AddInOneForce (j : RevoluteJoint T) (context : Context T)
    (joint_dof : Z) (joint_tau : T) : M (MultibodyForces T) unit :=
  (DRAKE_DEMAND (bool_decide (0 <= joint_dof < num_dofs j)%Z) InvalidDof ;;
   tree <- M_lift (get_parent_tree j) ;;
   forces <- M_get ;;
   DRAKE_DEMAND (CheckHasRightSizeForModel forces tree) SizeMismatch ;;
   DoAddInOneForce j context joint_dof joint_tau)%method.

(** [AddInTorque].  [forces] is a pointer: [None] is [nullptr]. *)
Definition AddInTorque (j : RevoluteJoint T) (context : Context T) (torque : T)
    (forces : option (MultibodyForces T))
    : option (MultibodyForces T) * Result unit :=
  match forces with
  | None => (None, Abort NullPointer)
  | Some forces0 =>
      let '(forces', r) :=
        (tree <- M_lift (get_parent_tree j) ;;
         forces <- M_get ;;
         DRAKE_DEMAND (CheckHasRightSizeForModel forces tree) SizeMismatch ;;
         AddInOneForce j context 0 torque)%method forces0 in
      (Some forces', r)
  end.

Definition MakeImplementationBlueprint (j : RevoluteJoint T) : BluePrint :=
  mkBluePrint
    [IsRevoluteMobilizer
       (RevoluteMobilizer_new (get_frame_on_parent j) (get_frame_on_child j) (axis_ j))].

(** Modelled from the spec: the finalize pass, which is not in the sources,
    assigns each mobilizer of a blueprint its offsets in the state and in the
    force accumulator. *)
Definition assign_topology (topology : MobilizerTopology) (m : Mobilizer) : Mobilizer :=
  match m with
  | IsRevoluteMobilizer r =>
      IsRevoluteMobilizer
        (mkRevoluteMobilizer (inboard_frame r) (outboard_frame r) (axis_F r)
           (Some topology))
  | OtherMobilizer F M0 _ => OtherMobilizer F M0 (Some topology)
  end.

(** Modelled from the spec: the binding step of the tree's finalize pass for
    one joint, which is not in the sources.  The mobilizers of the joint's
    blueprint are given their offsets and the joint is bound to them; a joint
    that is already bound stays as it is (there is no way back to unbound,
    and no second binding). *)
Definition Finalize (tree : MultibodyTree) (topology : MobilizerTopology)
    (j : RevoluteJoint T) : RevoluteJoint T :=
  match implementation_ j with
  | Some _ => j
  | None =>
      mkRevoluteJoint (name_ j) (frame_on_parent_ j) (frame_on_child_ j)
        (Some tree)
        (Some (mkJointImplementation
                 (map (assign_topology topology)
                      (blueprint_mobilizers_ (MakeImplementationBlueprint j)))))
        (axis_ j)
  end.

End RevoluteJoint.

(** ** Cloning to another scalar *)

(** Modelled from the spec: the frame provider of the cloned tree, which is
    not in the sources: frame lookup by name. *)
Definition find_frame (tree : MultibodyTree) (name : string) : option Frame :=
  List.find (fun frame => String.eqb (frame_name frame) name) (tree_frames tree).

(** Modelled from the spec: [RevoluteJoint<T>::TemplatedDoCloneToScalar], which
    the header declares and does not define.  The two frames of the clone are
    the ones of the same names in the cloned tree (a missing one is the
    frame-not-found error).  The header deletes copy, move and assignment and
    offers one constructor, so the clone is made by that constructor, from the
    joint's name, the two frames found and the joint's axis: the constructor
    checks and normalizes the axis once more, and the clone starts unbound. *)
Definition TemplatedDoCloneToScalar {T ToScalar : Type} (j : RevoluteJoint T)
    (tree_clone : MultibodyTree) : Result (RevoluteJoint ToScalar) :=
  match find_frame tree_clone (frame_name (get_frame_on_parent j)) with
  | None => Abort MissingFrame
  | Some frame_on_parent_body_clone =>
      match find_frame tree_clone (frame_name (get_frame_on_child j)) with
      | None => Abort MissingFrame
      | Some frame_on_child_body_clone =>
          RevoluteJoint_new (get_name j)
            frame_on_parent_body_clone frame_on_child_body_clone
            (get_revolute_axis j)
      end
  end.

(** The two overrides of [DoCloneToScalar]. *)
Definition DoCloneToScalar_double {T : Type} (j : RevoluteJoint T)
    (tree_clone : MultibodyTree) : Result (RevoluteJoint double) :=
  TemplatedDoCloneToScalar j tree_clone.

Definition DoCloneToScalar_AutoDiffXd {T : Type} (j : RevoluteJoint T)
    (tree_clone : MultibodyTree) : Result (RevoluteJoint AutoDiffXd) :=
  TemplatedDoCloneToScalar j tree_clone.

(** ** The two states of a joint *)

(** Just constructed, or added to a tree that is not finalized. *)
Definition Unbound {T : Type} (j : RevoluteJoint T) : Prop :=
  implementation_ j = None.

(** Bound by the finalize pass of [tree] to the revolute mobilizer [m], whose
    slot [topology] lies inside the tree's state. *)
Definition Bound {T : Type} (j : RevoluteJoint T) (tree : MultibodyTree)
    (m : RevoluteMobilizer) (topology : MobilizerTopology) : Prop :=
  parent_tree_ j = Some tree
  /\ implementation_ j = Some (mkJointImplementation [IsRevoluteMobilizer m])
  /\ topology_ m = Some topology
  /\ positions_start topology < num_positions tree
  /\ velocities_start topology < num_velocities tree.

(** A context made for [tree]. *)
Definition context_of_tree {T : Type} (tree : MultibodyTree) (context : Context T) : Prop :=
  exists q v, context = MultibodyTreeContext q v
              /\ length q = num_positions tree
              /\ length v = num_velocities tree.

(** ** A small mechanism used in the examples *)

Module Example.

Definition world_frame : Frame := mkFrame "world" 0.
Definition thigh_frame : Frame := mkFrame "thigh" 1.
Definition shin_frame : Frame := mkFrame "shin" 2.

(** Two revolute joints, so two positions and two velocities. *)
Definition leg : MultibodyTree :=
  mkMultibodyTree 2 2 [world_frame; thigh_frame; shin_frame].

Definition z_axis : Vector3 double := mkVector3 0%float 0%float 1%float.

(** The joint that [RevoluteJoint_new "knee" thigh shin z_axis] returns. *)
Definition knee_unbound (T : Type) : RevoluteJoint T :=
  mkRevoluteJoint "knee" thigh_frame shin_frame None None z_axis.

(** The knee is the second joint of the leg: its slot is 1. *)
Definition knee_topology : MobilizerTopology := mkMobilizerTopology 1 1.

Definition knee (T : Type) : RevoluteJoint T :=
  Finalize leg knee_topology (knee_unbound T).

Definition knee_mobilizer : RevoluteMobilizer :=
  mkRevoluteMobilizer thigh_frame shin_frame z_axis (Some knee_topology).

(** The leg while it is being assembled: it owns its frames, and no slot
    has been assigned yet. *)
Definition leg_in_assembly : MultibodyTree :=
  mkMultibodyTree 0 0 [world_frame; thigh_frame; shin_frame].

(** The knee once the leg owns it, before the leg is finalized. *)
Definition knee_added (T : Type) : RevoluteJoint T :=
  mkRevoluteJoint "knee" thigh_frame shin_frame (Some leg_in_assembly) None z_axis.

(** An accumulator made for a mechanism with one velocity only. *)
Definition short_forces : MultibodyForces double :=
  mkMultibodyForces [0%float].

(** An axis whose three components are machine epsilon, one of length
    exactly machine epsilon, and one of length 2^600. *)
Definition epsilon_axis : Vector3 double := mkVector3 kEpsilon kEpsilon kEpsilon.
Definition epsilon_x_axis : Vector3 double := mkVector3 kEpsilon 0%float 0%float.
Definition huge_axis : Vector3 double := mkVector3 0x1p+600%float 0%float 0%float.

(** A tree that was cloned without the shin's frame. *)
Definition leg_without_shin : MultibodyTree :=
  mkMultibodyTree 2 2 [world_frame; thigh_frame].




End Example.

(** ** A change of scalar

    What a map [f] from the scalar [T1] to the scalar [T2] does to the
    containers and results that hold scalars. *)

Definition Context_map {T1 T2 : Type} (f : T1 -> T2) (context : Context T1)
    : Context T2 :=
  match context with
  | MultibodyTreeContext q v => MultibodyTreeContext (f <$> q) (f <$> v)
  | OtherContext x => OtherContext (f <$> x)
  end.

Definition MultibodyForces_map {T1 T2 : Type} (f : T1 -> T2)
    (forces : MultibodyForces T1) : MultibodyForces T2 :=
  mkMultibodyForces (f <$> generalized_forces forces).

Definition Result_map {A B : Type} (f : A -> B) (r : Result A) : Result B :=
  match r with
  | Ok a => Ok (f a)
  | Abort e => Abort e
  end.

(** ** Callers and further examples *)

(** Eigen's unary minus on a [Vector3<double>]: the reversed axis. *)
Definition Vector3_opp (v : Vector3 double) : Vector3 double :=
  mkVector3 (- vx v)%float (- vy v)%float (- vz v)%float.

(** A [double] that is not a finite number: a NaN or an infinity. *)
Definition not_finite (x : double) : Prop :=
  x = nan \/ x = infinity \/ x = neg_infinity.

(** A caller that injects a list of torques into one joint, one call of
    [AddInTorque] after the other, and stops at the first call that aborts. *)
Fixpoint AddInTorque_each {T : Type} `{Scalar T} (j : RevoluteJoint T)
    (context : Context T) (torques : list T)
    (forces : option (MultibodyForces T))
    : option (MultibodyForces T) * Result unit :=
  match torques with
  | [] => (forces, Ok tt)
  | torque :: torques' =>
      match AddInTorque j context torque forces with
      | (forces', Ok _) => AddInTorque_each j context torques' forces'
      | (forces', Abort e) => (forces', Abort e)
      end
  end.

Module Leg.

(** The hip is the first joint of the example leg: its slot is 0. *)
Definition hip_topology : MobilizerTopology := mkMobilizerTopology 0 0.

Definition x_axis : Vector3 double := mkVector3 1%float 0%float 0%float.

Definition hip_unbound (T : Type) : RevoluteJoint T :=
  mkRevoluteJoint "hip" Example.world_frame Example.thigh_frame None None x_axis.

Definition hip (T : Type) : RevoluteJoint T :=
  Finalize Example.leg hip_topology (hip_unbound T).

Definition hip_mobilizer : RevoluteMobilizer :=
  mkRevoluteMobilizer Example.world_frame Example.thigh_frame x_axis
    (Some hip_topology).

(** A knee whose implementation lists two mobilizers, and one whose only
    mobilizer is not a revolute one. *)
Definition knee_two_mobilizers (T : Type) : RevoluteJoint T :=
  mkRevoluteJoint "knee" Example.thigh_frame Example.shin_frame
    (Some Example.leg)
    (Some (mkJointImplementation
             [IsRevoluteMobilizer Example.knee_mobilizer;
              IsRevoluteMobilizer hip_mobilizer]))
    Example.z_axis.

Definition knee_welded (T : Type) : RevoluteJoint T :=
  mkRevoluteJoint "knee" Example.thigh_frame Example.shin_frame
    (Some Example.leg)
    (Some (mkJointImplementation
             [OtherMobilizer Example.thigh_frame Example.shin_frame
                (Some Example.knee_topology)]))
    Example.z_axis.

(** A context and an accumulator of the leg. *)
Definition rest : Context double :=
  MultibodyTreeContext [0; 0]%float [0; 0]%float.

Definition loaded_forces : MultibodyForces double :=
  mkMultibodyForces [0.5; 0.25]%float.

End Leg.

(** ** The plan evaluator: the time segment of a tracked body

    [AtlasPlanEval.tick] picks, for every link constraint, the two knot times
    around the current time [t]:
    [body_t_ind = find(ts <= t, 1, 'last')], then [ts(body_t_ind:body_t_ind+1)]
    when [body_t_ind < length(ts)] and [ts([body_t_ind, body_t_ind])]
    otherwise.  Indices are MATLAB's, starting at 1; an empty [find] makes
    the comparison empty, hence false, and indexing with the empty index
    gives the empty array. *)

Module AtlasPlanEval.

(** [find(ts <= t, 1, 'last')]: the index, from 1, of the last knot that is
    [<= t], if there is one. *)
Fixpoint find_last_le (ts : list double) (t : double) : option nat :=
  match ts with
  | [] => None
  | knot :: ts' =>
      match find_last_le ts' t with
      | Some ind => Some (S ind)
      | None => if (knot <=? t)%float then Some 1 else None
      end
  end.

(** [ts(first:last)], indices from 1. *)
Definition range (ts : list double) (first last : nat) : list double :=
  take (S last - first) (drop (first - 1) ts).

(** [ts(ind)], index from 1; [None] where MATLAB raises an index error. *)
Definition at_index (ts : list double) (ind : nat) : option double :=
  match ind with
  | 0 => None
  | S k => ts !! k
  end.

(** What [tick] stores in [qp_input.bodies_data(j).ts]. *)
Definition bodies_data_ts (ts : list double) (t : double) : list double :=
  match find_last_le ts t with
  | None => []
  | Some body_t_ind =>
      if (body_t_ind <? length ts)%nat
      then range ts body_t_ind (body_t_ind + 1)
      else match at_index ts body_t_ind with
           | Some knot => [knot; knot]
           | None => []
           end
  end.

End AtlasPlanEval.

(** * Properties *)

(** ** Unfolding the monads *)

Ltac unfold_methods :=
  unfold M_bind, M_lift, M_ret, M_get, DRAKE_DEMAND, Result_bind in *.

(** ** What [get_mobilizer] returns in each state *)

Lemma get_mobilizer_Unbound {T : Type} (j : RevoluteJoint T) :
  Unbound j -> get_mobilizer j = Abort UnboundAccess.
Proof.
  unfold Unbound, get_mobilizer, get_implementation.
  intros ->. reflexivity.
Qed.

Lemma get_mobilizer_Bound {T : Type} (j : RevoluteJoint T) tree m topology :
  Bound j tree m topology -> get_mobilizer j = Ok m.
Proof.
  intros (_ & Himpl & _).
  unfold get_mobilizer, get_implementation.
  rewrite Himpl. reflexivity.
Qed.

Lemma get_parent_tree_Bound {T : Type} (j : RevoluteJoint T) tree m topology :
  Bound j tree m topology -> get_parent_tree j = Ok tree.
Proof.
  intros (Htree & _). unfold get_parent_tree. rewrite Htree. reflexivity.
Qed.

(** The finalize step binds a freshly constructed joint. *)
Lemma Finalize_Bound {T : Type} (j : RevoluteJoint T) tree topology :
  Unbound j ->
  positions_start topology < num_positions tree ->
  velocities_start topology < num_velocities tree ->
  Bound (Finalize tree topology j) tree
    (mkRevoluteMobilizer (frame_on_parent_ j) (frame_on_child_ j) (axis_ j)
       (Some topology))
    topology.
Proof.
  unfold Unbound, Bound, Finalize. intros -> Hq Hv. simpl.
  repeat split; assumption.
Qed.

(** ** Angle and rate: the state slot *)

Section StateSlot.
Context {T : Type}.
Implicit Types (j : RevoluteJoint T) (q v : list T) (theta : T).

(** Writing the angle touches the joint's position slot and nothing else. *)
Lemma set_angle_Bound j tree m topology q v theta :
  Bound j tree m topology ->
  length q = num_positions tree ->
  set_angle j theta (MultibodyTreeContext q v)
  = (MultibodyTreeContext (<[positions_start topology := theta]> q) v, Ok j).
Proof.
  intros Hb Hq. pose proof Hb as (_ & _ & Htop & Hlt & _).
  unfold set_angle. unfold_methods.
  rewrite (get_mobilizer_Bound _ _ _ _ Hb).
  unfold RevoluteMobilizer_set_angle. rewrite Htop.
  rewrite bool_decide_eq_true_2 by lia. reflexivity.
Qed.

Lemma get_angle_Bound j tree m topology q v :
  Bound j tree m topology ->
  get_angle j (MultibodyTreeContext q v)
  = match q !! positions_start topology with
    | Some angle => Ok angle
    | None => Abort SizeMismatch
    end.
Proof.
  intros Hb. pose proof Hb as (_ & _ & Htop & _).
  unfold get_angle, Result_bind.
  rewrite (get_mobilizer_Bound _ _ _ _ Hb).
  unfold RevoluteMobilizer_get_angle. rewrite Htop. reflexivity.
Qed.

(** C1, as amended: for every bound revolute joint, every context of the
    joint's tree (a multibody-tree context whose vectors have the tree's
    sizes) and every angle theta, [set_angle] succeeds, returns the joint, and
    a following [get_angle] on the context it leaves returns exactly theta;
    the context it leaves is again one of the tree. *)
Theorem set_angle_get_angle_roundtrip j tree m topology context theta :
  Bound j tree m topology ->
  context_of_tree tree context ->
  exists context',
    set_angle j theta context = (context', Ok j)
    /\ get_angle j context' = Ok theta
    /\ context_of_tree tree context'.
Proof.
  intros Hb (q & v & -> & Hq & Hv).
  pose proof Hb as (_ & _ & _ & Hlt & _).
  exists (MultibodyTreeContext (<[positions_start topology := theta]> q) v).
  split; [ exact (set_angle_Bound _ _ _ _ _ _ _ Hb Hq) | split ].
  - rewrite (get_angle_Bound _ _ _ _ _ _ Hb).
    rewrite list_lookup_insert_eq by lia. reflexivity.
  - exists (<[positions_start topology := theta]> q), v.
    rewrite length_insert. auto.
Qed.

(** The rate round-trips through the velocity slot in the same way, and
    writing the rate leaves the angle as it was. *)
Lemma set_angular_rate_get_angular_rate_roundtrip j tree m topology q v theta_dot :
  Bound j tree m topology ->
  length v = num_velocities tree ->
  set_angular_rate j theta_dot (MultibodyTreeContext q v)
  = (MultibodyTreeContext q (<[velocities_start topology := theta_dot]> v), Ok j)
  /\ get_angular_rate j
       (MultibodyTreeContext q (<[velocities_start topology := theta_dot]> v))
     = Ok theta_dot
  /\ get_angle j
       (MultibodyTreeContext q (<[velocities_start topology := theta_dot]> v))
     = get_angle j (MultibodyTreeContext q v).
Proof.
  intros Hb Hv. pose proof Hb as (_ & _ & Htop & _ & Hlt).
  unfold set_angular_rate, get_angular_rate. unfold_methods.
  rewrite (get_mobilizer_Bound _ _ _ _ Hb).
  unfold RevoluteMobilizer_set_angular_rate, RevoluteMobilizer_get_angular_rate.
  rewrite Htop, bool_decide_eq_true_2 by lia.
  rewrite list_lookup_insert_eq by lia.
  rewrite !(get_angle_Bound _ _ _ _ _ _ Hb).
  repeat split.
Qed.

End StateSlot.

Lemma set_angle_get_angle_roundtrip_witness :
  exists context',
    set_angle (Example.knee double) 1.5%float
      (MultibodyTreeContext [0; 0] [0; 0])%float
    = (context', Ok (Example.knee double))
    /\ get_angle (Example.knee double) context' = Ok 1.5%float
    /\ context_of_tree Example.leg context'.
Proof.
  apply (set_angle_get_angle_roundtrip (Example.knee double) Example.leg
           Example.knee_mobilizer Example.knee_topology).
  - unfold Bound. simpl. repeat split; lia.
  - exists [0; 0]%float, [0; 0]%float. simpl. repeat split; reflexivity.
Defined.

(** C1 as stated fails on a context that is not a multibody tree's: on it
    the bound knee's [set_angle] aborts with the logic error that the
    header's comment announces, and no angle is read back. *)
Lemma set_angle_other_context_aborts :
  Bound (Example.knee double) Example.leg Example.knee_mobilizer Example.knee_topology
  /\ set_angle (Example.knee double) 1.5%float (OtherContext [])
     = (OtherContext [], Abort NotMultibodyTreeContext)
  /\ get_angle (Example.knee double) (OtherContext []) <> Ok 1.5%float.
Proof.
  split; [ unfold Bound; simpl; repeat split; lia | ].
  split; [ reflexivity | ].
  vm_compute. discriminate.
Qed.

(** ** The constructor's check of the axis *)

(** What [isZero(kEpsilon)] tests: each coefficient against machine epsilon. *)
Lemma isZero_kEpsilon (axis : Vector3 double) :
  isZero axis kEpsilon
  = ((abs (vx axis) <=? kEpsilon) && (abs (vy axis) <=? kEpsilon)
     && (abs (vz axis) <=? kEpsilon))%float.
Proof. reflexivity. Qed.

(** No method of a constructed joint reports a degenerate axis. *)
Lemma get_mobilizer_not_degenerate {T : Type} (j : RevoluteJoint T) :
  get_mobilizer j <> Abort DegenerateConstruction.
Proof.
  unfold get_mobilizer, get_implementation, Result_bind.
  repeat case_match; congruence.
Qed.

Lemma accessors_not_degenerate {T : Type} (j : RevoluteJoint T)
    (context : Context T) (x : T) :
  get_angle j context <> Abort DegenerateConstruction
  /\ get_angular_rate j context <> Abort DegenerateConstruction
  /\ (set_angle j x context).2 <> Abort DegenerateConstruction
  /\ (set_angular_rate j x context).2 <> Abort DegenerateConstruction.
Proof.
  pose proof (get_mobilizer_not_degenerate j) as Hm.
  unfold get_angle, get_angular_rate, set_angle, set_angular_rate.
  unfold RevoluteMobilizer_get_angle, RevoluteMobilizer_get_angular_rate,
    RevoluteMobilizer_set_angle, RevoluteMobilizer_set_angular_rate.
  unfold_methods.
  repeat split; repeat (case_match; simplify_eq/=); congruence.
Qed.

Lemma AddInTorque_not_degenerate {T : Type} `{Scalar T} (j : RevoluteJoint T)
    (context : Context T) (torque : T) (forces : option (MultibodyForces T)) :
  (AddInTorque j context torque forces).2 <> Abort DegenerateConstruction.
Proof.
  pose proof (get_mobilizer_not_degenerate j) as Hm.
  unfold AddInTorque, AddInOneForce, DoAddInOneForce, get_parent_tree,
    get_mutable_generalized_forces_from_array, on_mutable_generalized_forces,
    VectorBlock_add_at.
  unfold_methods.
  repeat (case_match; simplify_eq/=); congruence.
Qed.

(** C2, as amended: construction fails with the degenerate-construction
    error exactly when every component of the axis is at most machine epsilon
    in absolute value (Eigen's [isZero]; the zero vector is one such axis),
    and with any other axis it succeeds and yields an unbound joint that
    holds the normalized axis.  The check is made in the constructor, and no
    accessor or force-injection call on a joint reports it later. *)
Theorem RevoluteJoint_new_degenerate_iff_componentwise
    (T : Type) `{Scalar T} (name : string) (frame_on_parent frame_on_child : Frame)
    (axis : Vector3 double) :
  @RevoluteJoint_new T name frame_on_parent frame_on_child axis
  = (if ((abs (vx axis) <=? kEpsilon) && (abs (vy axis) <=? kEpsilon)
         && (abs (vz axis) <=? kEpsilon))%float
     then Abort DegenerateConstruction
     else Ok (mkRevoluteJoint name frame_on_parent frame_on_child None None
                (normalized axis)))
  /\ @RevoluteJoint_new T name frame_on_parent frame_on_child
       (mkVector3 0%float 0%float 0%float)
     = Abort DegenerateConstruction
  /\ forall (j : RevoluteJoint T) context x forces,
       get_angle j context <> Abort DegenerateConstruction
       /\ get_angular_rate j context <> Abort DegenerateConstruction
       /\ (set_angle j x context).2 <> Abort DegenerateConstruction
       /\ (set_angular_rate j x context).2 <> Abort DegenerateConstruction
       /\ (AddInTorque j context x forces).2 <> Abort DegenerateConstruction.
Proof.
  split; [ | split ].
  - unfold RevoluteJoint_new. rewrite isZero_kEpsilon.
    destruct (_ && _ && _); reflexivity.
  - reflexivity.
  - intros j context x forces.
    pose proof (accessors_not_degenerate j context x) as (? & ? & ? & ?).
    pose proof (AddInTorque_not_degenerate j context x forces).
    auto.
Qed.

(** C2 as stated fails: the axis (eps, eps, eps) has magnitude eps * sqrt 3
    and the axis (eps, 0, 0) has magnitude eps; neither magnitude is below
    machine epsilon, and the constructor rejects both axes. *)
Lemma RevoluteJoint_new_rejects_epsilon_axis :
  ((norm Example.epsilon_axis <? kEpsilon)%float = false
   /\ @RevoluteJoint_new double "knee" Example.thigh_frame Example.shin_frame
        Example.epsilon_axis
      = Abort DegenerateConstruction)
  /\ ((norm Example.epsilon_x_axis <? kEpsilon)%float = false
      /\ @RevoluteJoint_new double "knee" Example.thigh_frame Example.shin_frame
           Example.epsilon_x_axis
         = Abort DegenerateConstruction).
Proof. repeat split; reflexivity. Qed.

(** ** The stored axis *)

(** An axis along z of length 2 is stored as the unit vector along z. *)
Lemma get_revolute_axis_z2 :
  exists j : RevoluteJoint double,
    RevoluteJoint_new "knee" Example.thigh_frame Example.shin_frame
      (mkVector3 0%float 0%float 2%float) = Ok j
    /\ get_revolute_axis j = Example.z_axis.
Proof. eexists. split; reflexivity. Qed.

(** C6 fails at an axis of length 2^600: the constructor accepts it, its
    squared norm overflows to infinity, and the axis that is stored and
    returned is the zero vector, of norm 0. *)
Theorem get_revolute_axis_huge_axis :
  exists j : RevoluteJoint double,
    RevoluteJoint_new "knee" Example.thigh_frame Example.shin_frame
      Example.huge_axis = Ok j
    /\ get_revolute_axis j = mkVector3 0%float 0%float 0%float
    /\ norm (get_revolute_axis j) = 0%float.
Proof. eexists. repeat split; reflexivity. Qed.

(** ** The blueprint *)

(** C7: the blueprint of a constructed joint lists exactly one mobilizer, the
    revolute mobilizer made from the constructor's parent frame, child frame
    and normalized axis; it is the same for every joint that has these three
    construction data, whatever else differs (in particular before and after
    the joint is bound), so repeated calls give identical results. *)
Theorem MakeImplementationBlueprint_pure (T : Type) (name : string)
    (frame_on_parent frame_on_child : Frame) (axis : Vector3 double)
    (j : RevoluteJoint T) :
  RevoluteJoint_new name frame_on_parent frame_on_child axis = Ok j ->
  MakeImplementationBlueprint j
  = mkBluePrint
      [IsRevoluteMobilizer
         (RevoluteMobilizer_new frame_on_parent frame_on_child (normalized axis))]
  /\ length (blueprint_mobilizers_ (MakeImplementationBlueprint j)) = 1
  /\ (forall tree topology,
        MakeImplementationBlueprint (Finalize tree topology j)
        = MakeImplementationBlueprint j)
  /\ (forall j' : RevoluteJoint T,
        get_frame_on_parent j' = get_frame_on_parent j ->
        get_frame_on_child j' = get_frame_on_child j ->
        get_revolute_axis j' = get_revolute_axis j ->
        MakeImplementationBlueprint j' = MakeImplementationBlueprint j).
Proof.
  unfold RevoluteJoint_new. destruct (negb _); [ | discriminate ].
  intros [= <-]. repeat split.
  intros j'. unfold MakeImplementationBlueprint, get_revolute_axis.
  intros -> -> ->. reflexivity.
Qed.

Lemma MakeImplementationBlueprint_pure_witness :
  MakeImplementationBlueprint (Example.knee_unbound double)
  = mkBluePrint
      [IsRevoluteMobilizer
         (RevoluteMobilizer_new Example.thigh_frame Example.shin_frame
            (normalized Example.z_axis))]
  /\ length (blueprint_mobilizers_
               (MakeImplementationBlueprint (Example.knee_unbound double))) = 1
  /\ (forall tree topology,
        MakeImplementationBlueprint
          (Finalize tree topology (Example.knee_unbound double))
        = MakeImplementationBlueprint (Example.knee_unbound double))
  /\ (forall j' : RevoluteJoint double,
        get_frame_on_parent j' = get_frame_on_parent (Example.knee_unbound double) ->
        get_frame_on_child j' = get_frame_on_child (Example.knee_unbound double) ->
        get_revolute_axis j' = get_revolute_axis (Example.knee_unbound double) ->
        MakeImplementationBlueprint j'
        = MakeImplementationBlueprint (Example.knee_unbound double)).
Proof.
  apply (MakeImplementationBlueprint_pure double "knee"
           Example.thigh_frame Example.shin_frame Example.z_axis).
  reflexivity.
Defined.

(** ** Force injection *)

Section Forces.
Context {T : Type} `{Scalar T}.
Implicit Types (j : RevoluteJoint T) (forces : MultibodyForces T).

(** [DoAddInOneForce] on a bound joint and an accumulator that reaches the
    joint's slot: the torque is added to what the slot holds. *)
Lemma DoAddInOneForce_Bound j tree m topology context joint_tau forces old :
  Bound j tree m topology ->
  generalized_forces forces !! velocities_start topology = Some old ->
  DoAddInOneForce j context 0 joint_tau forces
  = (mkMultibodyForces
       (<[velocities_start topology := scalar_add old joint_tau]>
          (generalized_forces forces)),
     Ok tt).
Proof.
  intros Hb Hold. pose proof Hb as (_ & _ & Htop & _).
  unfold DoAddInOneForce. unfold_methods. simpl.
  rewrite (get_mobilizer_Bound _ _ _ _ Hb).
  unfold get_mutable_generalized_forces_from_array. rewrite Htop.
  apply lookup_lt_Some in Hold as Hlen.
  rewrite bool_decide_eq_true_2 by lia.
  unfold on_mutable_generalized_forces, VectorBlock_add_at. simpl.
  rewrite Nat.add_0_r, Hold. reflexivity.
Qed.

(** [AddInTorque] on a bound joint and an accumulator sized for its tree. *)
Lemma AddInTorque_Bound j tree m topology context torque forces old :
  Bound j tree m topology ->
  CheckHasRightSizeForModel forces tree = true ->
  generalized_forces forces !! velocities_start topology = Some old ->
  AddInTorque j context torque (Some forces)
  = (Some (mkMultibodyForces
             (<[velocities_start topology := scalar_add old torque]>
                (generalized_forces forces))),
     Ok tt).
Proof.
  intros Hb Hsize Hold.
  unfold AddInTorque, AddInOneForce. unfold_methods.
  rewrite (get_parent_tree_Bound _ _ _ _ Hb), Hsize.
  rewrite bool_decide_eq_true_2 by (unfold num_dofs, do_get_num_dofs; lia).
  rewrite Hsize.
  rewrite (DoAddInOneForce_Bound _ _ _ _ context torque forces old Hb Hold).
  reflexivity.
Qed.

Lemma CheckHasRightSizeForModel_insert forces tree k x :
  CheckHasRightSizeForModel
    (mkMultibodyForces (<[k := x]> (generalized_forces forces))) tree
  = CheckHasRightSizeForModel forces tree.
Proof.
  unfold CheckHasRightSizeForModel. simpl. rewrite length_insert. reflexivity.
Qed.

(** C3: take a bound joint and an accumulator that is sized for the joint's
    tree and holds zero in every slot.  Two calls of [AddInTorque] with f1 and
    f2 both succeed; the joint's slot then holds the two torques added onto
    the zero it held, [(0 + f1) + f2], which is [f1 + f2] as soon as the
    scalar's zero leaves f1 alone; every other slot holds what it held
    before. *)
Theorem AddInTorque_twice_accumulates j tree m topology context1 context2 f1 f2
    forces :
  Bound j tree m topology ->
  CheckHasRightSizeForModel forces tree = true ->
  (forall k x, generalized_forces forces !! k = Some x -> x = scalar_zero) ->
  exists forces1 forces2,
    AddInTorque j context1 f1 (Some forces) = (Some forces1, Ok tt)
    /\ AddInTorque j context2 f2 (Some forces1) = (Some forces2, Ok tt)
    /\ generalized_forces forces2 !! velocities_start topology
       = Some (scalar_add (scalar_add scalar_zero f1) f2)
    /\ (scalar_add scalar_zero f1 = f1 ->
        generalized_forces forces2 !! velocities_start topology
        = Some (scalar_add f1 f2))
    /\ forall k, k <> velocities_start topology ->
         generalized_forces forces2 !! k = generalized_forces forces !! k.
Proof.
  intros Hb Hsize Hzero. pose proof Hb as (_ & _ & _ & _ & Hlt).
  set (i := velocities_start topology) in *.
  assert (Hlen : i < length (generalized_forces forces)).
  { unfold CheckHasRightSizeForModel in Hsize.
    apply bool_decide_eq_true_1 in Hsize. lia. }
  assert (Hold : generalized_forces forces !! i = Some scalar_zero).
  { destruct (lookup_lt_is_Some_2 _ _ Hlen) as [x Hx].
    rewrite Hx. f_equal. exact (Hzero _ _ Hx). }
  set (forces1 := mkMultibodyForces
                    (<[i := scalar_add scalar_zero f1]> (generalized_forces forces))).
  assert (Hold1 : generalized_forces forces1 !! i = Some (scalar_add scalar_zero f1)).
  { unfold forces1. simpl. apply list_lookup_insert_eq. exact Hlen. }
  assert (Hslot : generalized_forces
                    (mkMultibodyForces
                       (<[i := scalar_add (scalar_add scalar_zero f1) f2]>
                          (generalized_forces forces1))) !! i
                  = Some (scalar_add (scalar_add scalar_zero f1) f2)).
  { simpl. apply list_lookup_insert_eq. rewrite length_insert. exact Hlen. }
  exists forces1,
    (mkMultibodyForces
       (<[i := scalar_add (scalar_add scalar_zero f1) f2]>
          (generalized_forces forces1))).
  split; [ | split; [ | split; [ | split ] ] ].
  - exact (AddInTorque_Bound _ _ _ _ context1 f1 forces _ Hb Hsize Hold).
  - apply (AddInTorque_Bound _ _ _ _ context2 f2 forces1 _ Hb); [ | exact Hold1 ].
    unfold forces1. rewrite CheckHasRightSizeForModel_insert. exact Hsize.
  - exact Hslot.
  - intros Hneutral. rewrite Hslot, Hneutral. reflexivity.
  - intros k Hk. simpl.
    rewrite !list_lookup_insert_ne by (intros Heq; apply Hk; symmetry; exact Heq).
    reflexivity.
Qed.

(** C8: on a bound joint, [AddInTorque] with an accumulator whose size is
    not the one of the owning tree aborts with the size-mismatch error, and
    the accumulator is handed back as it was given. *)
Theorem AddInTorque_size_mismatch j tree m topology context torque forces :
  Bound j tree m topology ->
  CheckHasRightSizeForModel forces tree = false ->
  AddInTorque j context torque (Some forces) = (Some forces, Abort SizeMismatch).
Proof.
  intros Hb Hsize.
  unfold AddInTorque. unfold_methods.
  rewrite (get_parent_tree_Bound _ _ _ _ Hb), Hsize. reflexivity.
Qed.

(** C10: [DoAddInOneForce] with a degree of freedom other than 0 aborts and
    hands the accumulator back as it was given; and whenever it succeeds the
    degree of freedom was 0 and every slot but the one of the joint's
    mobilizer holds what it held before. *)
Theorem DoAddInOneForce_only_dof_zero j context (joint_dof : Z) joint_tau forces :
  (joint_dof <> 0%Z ->
   DoAddInOneForce j context joint_dof joint_tau forces = (forces, Abort InvalidDof))
  /\ (forall forces',
        DoAddInOneForce j context joint_dof joint_tau forces = (forces', Ok tt) ->
        joint_dof = 0%Z
        /\ exists m topology,
             get_mobilizer j = Ok m
             /\ topology_ m = Some topology
             /\ forall k, k <> velocities_start topology ->
                  generalized_forces forces' !! k = generalized_forces forces !! k).
Proof.
  split.
  - intros Hdof. unfold DoAddInOneForce. unfold_methods.
    apply Z.eqb_neq in Hdof. rewrite Hdof. reflexivity.
  - intros forces'. unfold DoAddInOneForce. unfold_methods.
    destruct (Z.eqb_spec joint_dof 0) as [-> | Hne]; [ | discriminate ].
    destruct (get_mobilizer j) as [m | e]; [ | discriminate ].
    unfold get_mutable_generalized_forces_from_array.
    destruct (topology_ m) as [topology | ] eqn:Htop; [ | discriminate ].
    case_bool_decide; [ | discriminate ].
    unfold on_mutable_generalized_forces, VectorBlock_add_at. simpl.
    rewrite Nat.add_0_r.
    destruct (generalized_forces forces !! velocities_start topology)
      as [old | ]; [ | discriminate ].
    intros [= <-]. split; [ reflexivity | ].
    exists m, topology. split; [ reflexivity | split; [ exact Htop | ] ].
    intros k Hk. simpl.
    apply list_lookup_insert_ne. intros Heq. apply Hk. symmetry. exact Heq.
Qed.

End Forces.

Lemma AddInTorque_twice_accumulates_witness :
  exists forces1 forces2,
    AddInTorque (Example.knee double) (OtherContext []) 1.5%float
      (Some (MultibodyForces_new Example.leg))
    = (Some forces1, Ok tt)
    /\ AddInTorque (Example.knee double) (OtherContext []) 2.25%float (Some forces1)
       = (Some forces2, Ok tt)
    /\ generalized_forces forces2 !! velocities_start Example.knee_topology
       = Some (scalar_add (scalar_add scalar_zero 1.5) 2.25)%float
    /\ (scalar_add scalar_zero 1.5%float = 1.5%float ->
        generalized_forces forces2 !! velocities_start Example.knee_topology
        = Some (scalar_add 1.5 2.25)%float)
    /\ forall k, k <> velocities_start Example.knee_topology ->
         generalized_forces forces2 !! k
         = generalized_forces (MultibodyForces_new (T:=double) Example.leg) !! k.
Proof.
  apply (AddInTorque_twice_accumulates (Example.knee double) Example.leg
           Example.knee_mobilizer Example.knee_topology).
  - unfold Bound. simpl. repeat split; lia.
  - reflexivity.
  - intros [ | [ | k ] ] x; simpl; intros [= <-]; reflexivity.
Defined.

Lemma AddInTorque_size_mismatch_witness :
  AddInTorque (Example.knee double) (OtherContext []) 1.5%float
    (Some Example.short_forces)
  = (Some Example.short_forces, Abort SizeMismatch).
Proof.
  apply (AddInTorque_size_mismatch (Example.knee double) Example.leg
           Example.knee_mobilizer Example.knee_topology).
  - unfold Bound. simpl. repeat split; lia.
  - reflexivity.
Defined.

(** The second call of the example really holds the sum: 1.5 + 2.25. *)
Example AddInTorque_knee_twice :
  AddInTorque (Example.knee double) (OtherContext []) 2.25%float
    (AddInTorque (Example.knee double) (OtherContext []) 1.5%float
       (Some (MultibodyForces_new Example.leg))).1
  = (Some (mkMultibodyForces [0; 3.75]%float), Ok tt).
Proof. reflexivity. Qed.

(** For [double] the zero is neutral for every value but the negative zero,
    where IEEE 754 gives [0 + -0 = +0]. *)
Lemma double_add_zero_l (x : double) :
  x <> (-0)%float -> scalar_add scalar_zero x = x.
Proof.
  intros Hx. change (0 + x = x)%float. apply Prim2SF_inj. rewrite add_spec.
  change (Prim2SF 0%float) with (S754_zero false).
  destruct (Prim2SF x) as [[|] | [|] | | s m e] eqn:Hsf; try reflexivity.
  exfalso. apply Hx. apply Prim2SF_inj. rewrite Hsf. reflexivity.
Qed.

(** For [double] the slot holds [f1 + f2] itself, whatever the two torques,
    but for two negative zeros, where it holds [+0] and [f1 + f2] is [-0]
    (equal as numbers). *)
Lemma double_zero_add_add (f1 f2 : double) :
  ~ (f1 = (-0)%float /\ f2 = (-0)%float) ->
  scalar_add (scalar_add scalar_zero f1) f2 = scalar_add f1 f2.
Proof.
  intros Hneg. change (0 + f1 + f2 = f1 + f2)%float.
  destruct (Prim2SF f1) as [[|] | [|] | | s m e] eqn:Hsf1;
    try (replace (0 + f1)%float with f1;
         [ reflexivity
         | symmetry; apply double_add_zero_l;
           intros ->; vm_compute in Hsf1; discriminate ]).
  assert (Hf1 : f1 = (-0)%float).
  { apply Prim2SF_inj. rewrite Hsf1. reflexivity. }
  subst f1. change (0 + -0)%float with 0%float.
  apply Prim2SF_inj. rewrite !add_spec.
  change (Prim2SF 0%float) with (S754_zero false).
  change (Prim2SF (-0)%float) with (S754_zero true).
  destruct (Prim2SF f2) as [[|] | [|] | | s m e] eqn:Hsf2; try reflexivity.
  exfalso. apply Hneg. split; [ reflexivity | ].
  apply Prim2SF_inj. rewrite Hsf2. reflexivity.
Qed.

(** ** The unbound state *)

Section UnboundJoint.
Context {T : Type} `{Scalar T}.

(** C4, as amended: on an unbound joint each of the four accessors aborts
    with the unbound-access error and leaves the context as it was, and so
    does the private force override; [AddInTorque] on a supplied accumulator
    aborts and leaves the accumulator as it was, with the unbound-access
    error when the accumulator is sized for the joint's tree or the joint has
    no tree yet, and with the size-mismatch error of the size check, which
    comes first, otherwise. *)
Theorem Unbound_calls_abort (j : RevoluteJoint T) (context : Context T) (x : T)
    (forces : MultibodyForces T) :
  Unbound j ->
  get_angle j context = Abort UnboundAccess
  /\ get_angular_rate j context = Abort UnboundAccess
  /\ set_angle j x context = (context, Abort UnboundAccess)
  /\ set_angular_rate j x context = (context, Abort UnboundAccess)
  /\ DoAddInOneForce j context 0 x forces = (forces, Abort UnboundAccess)
  /\ AddInTorque j context x (Some forces)
     = (Some forces,
        Abort (match parent_tree_ j with
               | Some tree =>
                   if CheckHasRightSizeForModel forces tree
                   then UnboundAccess else SizeMismatch
               | None => UnboundAccess
               end)).
Proof.
  intros Hu. pose proof (get_mobilizer_Unbound j Hu) as Hm.
  assert (Hdo : DoAddInOneForce j context 0 x forces = (forces, Abort UnboundAccess)).
  { unfold DoAddInOneForce. unfold_methods. rewrite Hm. reflexivity. }
  unfold get_angle, get_angular_rate, set_angle, set_angular_rate.
  unfold_methods. rewrite Hm.
  do 4 (split; [ reflexivity | ]). split; [ exact Hdo | ].
  unfold AddInTorque, AddInOneForce, get_parent_tree. unfold_methods.
  destruct (parent_tree_ j) as [tree | ]; [ | reflexivity ].
  rewrite bool_decide_eq_true_2 by (unfold num_dofs, do_get_num_dofs; lia).
  cbv beta iota.
  destruct (CheckHasRightSizeForModel forces tree) eqn:Hsize; cbv beta iota;
    [ rewrite Hsize, Hdo | ]; reflexivity.
Qed.

End UnboundJoint.

Lemma Unbound_calls_abort_witness :
  get_angle (Example.knee_added double) (MultibodyTreeContext [0; 0] [0; 0])%float
  = Abort UnboundAccess
  /\ get_angular_rate (Example.knee_added double)
       (MultibodyTreeContext [0; 0] [0; 0])%float
     = Abort UnboundAccess
  /\ set_angle (Example.knee_added double) 1.5%float
       (MultibodyTreeContext [0; 0] [0; 0])%float
     = ((MultibodyTreeContext [0; 0] [0; 0])%float, Abort UnboundAccess)
  /\ set_angular_rate (Example.knee_added double) 1.5%float
       (MultibodyTreeContext [0; 0] [0; 0])%float
     = ((MultibodyTreeContext [0; 0] [0; 0])%float, Abort UnboundAccess)
  /\ DoAddInOneForce (Example.knee_added double)
       (MultibodyTreeContext [0; 0] [0; 0])%float 0 1.5%float
       (MultibodyForces_new Example.leg_in_assembly)
     = (MultibodyForces_new Example.leg_in_assembly, Abort UnboundAccess)
  /\ AddInTorque (Example.knee_added double)
       (MultibodyTreeContext [0; 0] [0; 0])%float 1.5%float
       (Some (MultibodyForces_new Example.leg_in_assembly))
     = (Some (MultibodyForces_new Example.leg_in_assembly),
        Abort (match parent_tree_ (Example.knee_added double) with
               | Some tree =>
                   if CheckHasRightSizeForModel
                        (MultibodyForces_new (T:=double) Example.leg_in_assembly) tree
                   then UnboundAccess else SizeMismatch
               | None => UnboundAccess
               end)).
Proof.
  apply (Unbound_calls_abort (Example.knee_added double)).
  reflexivity.
Defined.

(** C4 as stated fails for force injection: the knee is unbound, and
    [AddInTorque] with an accumulator of the wrong size stops at the size
    check, with the size-mismatch error and not the unbound-access one. *)
Lemma AddInTorque_Unbound_size_mismatch :
  Unbound (Example.knee_added double)
  /\ AddInTorque (Example.knee_added double) (MultibodyTreeContext [0; 0] [0; 0])%float
       1.5%float (Some Example.short_forces)
     = (Some Example.short_forces, Abort SizeMismatch)
  /\ Abort (A:=unit) SizeMismatch <> Abort UnboundAccess.
Proof.
  split; [ reflexivity | ]. split; [ reflexivity | discriminate ].
Qed.

(** ** Cloning *)




(** The bound knee over [double] cloned into the leg is the unbound knee
    over [AutoDiffXd], and cloning that one back gives the unbound knee over
    [double]; cloned into a tree that lacks the shin's frame it fails. *)
Example knee_clone_to_AutoDiffXd :
  DoCloneToScalar_AutoDiffXd (Example.knee double) Example.leg
  = Ok (Example.knee_unbound AutoDiffXd)
  /\ DoCloneToScalar_double (Example.knee_unbound AutoDiffXd) Example.leg
     = Ok (Example.knee_unbound double)
  /\ DoCloneToScalar_AutoDiffXd (Example.knee double) Example.leg_without_shin
     = Abort MissingFrame.
Proof. repeat split; reflexivity. Qed.

(** * Further properties of the header *)

(** ** [get_mobilizer] and implementations of the wrong shape *)

(** [get_mobilizer] by cases on the implementation. *)
Lemma get_mobilizer_cases {T : Type} (j : RevoluteJoint T) :
  get_mobilizer j
  = match implementation_ j with
    | None => Abort UnboundAccess
    | Some impl =>
        match mobilizers_ impl with
        | [IsRevoluteMobilizer m] => Ok m
        | _ => Abort UnexpectedImplementation
        end
    end.
Proof.
  unfold get_mobilizer, get_implementation, Result_bind, get_num_mobilizers.
  destruct (implementation_ j) as [[ms] | ]; [ | reflexivity ]. simpl.
  destruct ms as [ | [m | F M0 top] [ | m' ms' ] ]; reflexivity.
Qed.

Section WrongImplementation.
Context {T : Type} `{Scalar T}.

(** X1: when the implementation of a joint is anything but one single
    revolute mobilizer (no mobilizer, two or more, or one of another kind),
    the four accessors and the force override abort on the demands of
    [get_mobilizer], and the context and the accumulator stay as they were. *)
Theorem wrong_implementation_aborts (j : RevoluteJoint T)
    (impl : JointImplementation) (context : Context T) (x : T)
    (forces : MultibodyForces T) :
  implementation_ j = Some impl ->
  (forall m, mobilizers_ impl <> [IsRevoluteMobilizer m]) ->
  get_angle j context = Abort UnexpectedImplementation
  /\ get_angular_rate j context = Abort UnexpectedImplementation
  /\ set_angle j x context = (context, Abort UnexpectedImplementation)
  /\ set_angular_rate j x context = (context, Abort UnexpectedImplementation)
  /\ DoAddInOneForce j context 0 x forces = (forces, Abort UnexpectedImplementation).
Proof.
  intros Himpl Hshape.
  assert (Hm : get_mobilizer j = Abort UnexpectedImplementation).
  { rewrite get_mobilizer_cases, Himpl.
    destruct (mobilizers_ impl) as [ | [m | F M0 top] [ | m' ms' ] ] eqn:Hms;
      try reflexivity.
    exfalso. exact (Hshape m eq_refl). }
  unfold get_angle, get_angular_rate, set_angle, set_angular_rate, DoAddInOneForce.
  unfold_methods. rewrite Hm. repeat split.
Qed.

End WrongImplementation.

Lemma wrong_implementation_aborts_witness :
  get_angle (Leg.knee_two_mobilizers double) Leg.rest
  = Abort UnexpectedImplementation
  /\ get_angular_rate (Leg.knee_two_mobilizers double) Leg.rest
     = Abort UnexpectedImplementation
  /\ set_angle (Leg.knee_two_mobilizers double) 1.5%float Leg.rest
     = (Leg.rest, Abort UnexpectedImplementation)
  /\ set_angular_rate (Leg.knee_two_mobilizers double) 1.5%float Leg.rest
     = (Leg.rest, Abort UnexpectedImplementation)
  /\ DoAddInOneForce (Leg.knee_two_mobilizers double) Leg.rest 0 1.5%float
       Leg.loaded_forces
     = (Leg.loaded_forces, Abort UnexpectedImplementation).
Proof.
  apply (wrong_implementation_aborts (Leg.knee_two_mobilizers double)
           (mkJointImplementation
              [IsRevoluteMobilizer Example.knee_mobilizer;
               IsRevoluteMobilizer Leg.hip_mobilizer])).
  - reflexivity.
  - intros m. simpl. discriminate.
Defined.

(** A joint whose only mobilizer is of another kind fails the cast. *)
Example knee_welded_aborts :
  get_angle (Leg.knee_welded double) Leg.rest = Abort UnexpectedImplementation
  /\ AddInTorque (Leg.knee_welded double) Leg.rest 1.5%float (Some Leg.loaded_forces)
     = (Some Leg.loaded_forces, Abort UnexpectedImplementation).
Proof. split; reflexivity. Qed.

(** ** [AddInTorque]: when it succeeds and what it leaves *)

Section AddInTorqueOutcome.
Context {T : Type} `{Scalar T}.
Implicit Types (j : RevoluteJoint T) (forces : MultibodyForces T).

(** The outcome of [DoAddInOneForce] at degree of freedom 0, by cases. *)
Lemma DoAddInOneForce_cases j context joint_tau forces :
  DoAddInOneForce j context 0 joint_tau forces
  = match get_mobilizer j with
    | Abort e => (forces, Abort e)
    | Ok m =>
        match topology_ m with
        | None => (forces, Abort UnboundAccess)
        | Some topology =>
            match generalized_forces forces !! velocities_start topology with
            | None => (forces, Abort SizeMismatch)
            | Some old =>
                (mkMultibodyForces
                   (<[velocities_start topology := scalar_add old joint_tau]>
                      (generalized_forces forces)),
                 Ok tt)
            end
        end
    end.
Proof.
  unfold DoAddInOneForce. unfold_methods. simpl.
  destruct (get_mobilizer j) as [m | e]; [ | reflexivity ].
  unfold get_mutable_generalized_forces_from_array.
  destruct (topology_ m) as [topology | ]; [ | reflexivity ].
  destruct (generalized_forces forces !! velocities_start topology)
    as [old | ] eqn:Hold.
  - apply lookup_lt_Some in Hold as Hlen.
    rewrite bool_decide_eq_true_2 by lia.
    unfold on_mutable_generalized_forces, VectorBlock_add_at. simpl.
    rewrite Nat.add_0_r, Hold. reflexivity.
  - apply lookup_ge_None in Hold as Hlen.
    rewrite bool_decide_eq_false_2 by lia. destruct forces. reflexivity.
Qed.

(** The outcome of [AddInTorque] on a supplied accumulator, by cases. *)
Lemma AddInTorque_cases j context torque forces :
  AddInTorque j context torque (Some forces)
  = match parent_tree_ j with
    | None => (Some forces, Abort UnboundAccess)
    | Some tree =>
        if CheckHasRightSizeForModel forces tree
        then let '(forces', r) := DoAddInOneForce j context 0 torque forces in
             (Some forces', r)
        else (Some forces, Abort SizeMismatch)
    end.
Proof.
  unfold AddInTorque, AddInOneForce, get_parent_tree. unfold_methods.
  destruct (parent_tree_ j) as [tree | ]; [ | reflexivity ].
  rewrite bool_decide_eq_true_2 by (unfold num_dofs, do_get_num_dofs; lia).
  cbv beta iota.
  destruct (CheckHasRightSizeForModel forces tree) eqn:Hsize; cbv beta iota;
    [ rewrite Hsize | ]; reflexivity.
Qed.

(** X2: a call of [AddInTorque] either succeeds or hands back the pointer and
    the accumulator exactly as it was given them, whatever made it abort; the
    same holds for the force override at any degree of freedom. *)
Theorem AddInTorque_abort_leaves_forces j context torque (joint_dof : Z)
    (forces_ptr : option (MultibodyForces T)) forces :
  ((AddInTorque j context torque forces_ptr).2 = Ok tt
   \/ (AddInTorque j context torque forces_ptr).1 = forces_ptr)
  /\ ((DoAddInOneForce j context joint_dof torque forces).2 = Ok tt
      \/ (DoAddInOneForce j context joint_dof torque forces).1 = forces).
Proof.
  assert (Hdo : (DoAddInOneForce j context 0 torque forces).2 = Ok tt
                \/ (DoAddInOneForce j context 0 torque forces).1 = forces).
  { rewrite DoAddInOneForce_cases.
    repeat case_match; simpl; auto. }
  split.
  - destruct forces_ptr as [forces0 | ]; [ | right; reflexivity ].
    rewrite AddInTorque_cases.
    destruct (parent_tree_ j) as [tree | ]; [ | right; reflexivity ].
    destruct (CheckHasRightSizeForModel forces0 tree); [ | right; reflexivity ].
    rewrite DoAddInOneForce_cases.
    repeat case_match; simplify_eq/=; auto.
  - destruct (Z.eq_dec joint_dof 0%Z) as [-> | Hne]; [ exact Hdo | ].
    right. unfold DoAddInOneForce. unfold_methods.
    apply Z.eqb_neq in Hne. rewrite Hne. reflexivity.
Qed.

(** X3: [AddInTorque] on a supplied accumulator succeeds exactly when the
    joint belongs to a tree, the accumulator has that tree's size, the joint's
    implementation is one revolute mobilizer with a slot, and the slot exists
    in the accumulator; the accumulator it then leaves is the given one with
    the torque added to the old value of that slot.  A successful call keeps
    the tree's size, and the outcome is the same for every context. *)
Theorem AddInTorque_Ok_iff j context torque forces forces' :
  (AddInTorque j context torque (Some forces) = (Some forces', Ok tt)
   <-> exists tree m topology old,
         parent_tree_ j = Some tree
         /\ CheckHasRightSizeForModel forces tree = true
         /\ implementation_ j = Some (mkJointImplementation [IsRevoluteMobilizer m])
         /\ topology_ m = Some topology
         /\ generalized_forces forces !! velocities_start topology = Some old
         /\ forces' = mkMultibodyForces
                        (<[velocities_start topology := scalar_add old torque]>
                           (generalized_forces forces)))
  /\ (AddInTorque j context torque (Some forces) = (Some forces', Ok tt) ->
      exists tree,
        parent_tree_ j = Some tree
        /\ CheckHasRightSizeForModel forces' tree = true)
  /\ (forall context' : Context T,
        AddInTorque j context' torque (Some forces)
        = AddInTorque j context torque (Some forces)).
Proof.
  assert (Hiff : AddInTorque j context torque (Some forces) = (Some forces', Ok tt)
                 <-> exists tree m topology old,
                       parent_tree_ j = Some tree
                       /\ CheckHasRightSizeForModel forces tree = true
                       /\ implementation_ j
                          = Some (mkJointImplementation [IsRevoluteMobilizer m])
                       /\ topology_ m = Some topology
                       /\ generalized_forces forces !! velocities_start topology
                          = Some old
                       /\ forces'
                          = mkMultibodyForces
                              (<[velocities_start topology := scalar_add old torque]>
                                 (generalized_forces forces))).
  { split.
    - intros Hok. rewrite AddInTorque_cases in Hok.
      destruct (parent_tree_ j) as [tree | ] eqn:Htree; [ | discriminate ].
      destruct (CheckHasRightSizeForModel forces tree) eqn:Hsize; [ | discriminate ].
      rewrite DoAddInOneForce_cases, get_mobilizer_cases in Hok.
      destruct (implementation_ j) as [[ms] | ] eqn:Himpl; [ | discriminate ].
      simpl in Hok.
      destruct ms as [ | [m | F M0 top] [ | m' ms' ] ]; try discriminate.
      destruct (topology_ m) as [topology | ] eqn:Htop; [ | discriminate ].
      destruct (generalized_forces forces !! velocities_start topology)
        as [old | ] eqn:Hold; [ | discriminate ].
      injection Hok as <-.
      exists tree, m, topology, old. repeat split; try assumption; reflexivity.
    - intros (tree & m & topology & old & Htree & Hsize & Himpl & Htop & Hold & ->).
      rewrite AddInTorque_cases, Htree, Hsize.
      rewrite DoAddInOneForce_cases, get_mobilizer_cases, Himpl. simpl.
      rewrite Htop, Hold. reflexivity. }
  split; [ exact Hiff | split ].
  - intros Hok. apply Hiff in Hok
      as (tree & m & topology & old & Htree & Hsize & _ & _ & _ & ->).
    exists tree. split; [ exact Htree | ].
    rewrite CheckHasRightSizeForModel_insert. exact Hsize.
  - intros context'. reflexivity.
Qed.

End AddInTorqueOutcome.

(** ** Several injections *)

Section SeveralInjections.
Context {T : Type} `{Scalar T}.
Implicit Types (j : RevoluteJoint T) (forces : MultibodyForces T).

(** X4: torques injected one call after the other into a bound joint and an
    accumulator of its tree's size all succeed; the joint's slot ends with the
    torques added onto its old value from left to right, every other slot is
    unchanged, and the accumulator keeps the tree's size. *)
Theorem AddInTorque_each_accumulates j tree m topology context (torques : list T)
    forces old :
  Bound j tree m topology ->
  CheckHasRightSizeForModel forces tree = true ->
  generalized_forces forces !! velocities_start topology = Some old ->
  exists forces',
    AddInTorque_each j context torques (Some forces) = (Some forces', Ok tt)
    /\ generalized_forces forces' !! velocities_start topology
       = Some (fold_left scalar_add torques old)
    /\ (forall k, k <> velocities_start topology ->
          generalized_forces forces' !! k = generalized_forces forces !! k)
    /\ CheckHasRightSizeForModel forces' tree = true.
Proof.
  intros Hb. revert forces old.
  induction torques as [ | torque torques IH]; intros forces old Hsize Hold.
  - exists forces. cbn [AddInTorque_each fold_left]. auto.
  - cbn [AddInTorque_each fold_left].
    rewrite (AddInTorque_Bound _ _ _ _ context torque forces old Hb Hsize Hold).
    set (forces1 := mkMultibodyForces
                      (<[velocities_start topology := scalar_add old torque]>
                         (generalized_forces forces))).
    apply lookup_lt_Some in Hold as Hlen.
    destruct (IH forces1 (scalar_add old torque)) as (forces' & Hrun & Hslot & Hrest & Hsize').
    + unfold forces1. rewrite CheckHasRightSizeForModel_insert. exact Hsize.
    + unfold forces1. simpl. apply list_lookup_insert_eq. exact Hlen.
    + exists forces'. split; [ exact Hrun | ]. split; [ exact Hslot | ].
      split; [ | exact Hsize' ].
      intros k Hk. rewrite (Hrest k Hk). unfold forces1. simpl.
      apply list_lookup_insert_ne. intros Heq. apply Hk. symmetry. exact Heq.
Qed.

(** X5: injections into two bound joints of one tree whose slots differ
    commute: both orders succeed and leave the same accumulator. *)
Theorem AddInTorque_two_joints_commute j1 j2 tree m1 m2 topology1 topology2
    context1 context2 torque1 torque2 forces :
  Bound j1 tree m1 topology1 ->
  Bound j2 tree m2 topology2 ->
  velocities_start topology1 <> velocities_start topology2 ->
  CheckHasRightSizeForModel forces tree = true ->
  exists forces',
    AddInTorque j2 context2 torque2
      (AddInTorque j1 context1 torque1 (Some forces)).1
    = (Some forces', Ok tt)
    /\ AddInTorque j1 context1 torque1
         (AddInTorque j2 context2 torque2 (Some forces)).1
       = (Some forces', Ok tt).
Proof.
  intros Hb1 Hb2 Hne Hsize.
  pose proof Hb1 as (_ & _ & _ & _ & Hlt1).
  pose proof Hb2 as (_ & _ & _ & _ & Hlt2).
  set (i1 := velocities_start topology1) in *.
  set (i2 := velocities_start topology2) in *.
  assert (Hlen : length (generalized_forces forces) = num_velocities tree).
  { unfold CheckHasRightSizeForModel in Hsize.
    apply bool_decide_eq_true_1 in Hsize. exact Hsize. }
  destruct (lookup_lt_is_Some_2 (generalized_forces forces) i1) as [old1 Hold1];
    [ lia | ].
  destruct (lookup_lt_is_Some_2 (generalized_forces forces) i2) as [old2 Hold2];
    [ lia | ].
  rewrite (AddInTorque_Bound _ _ _ _ context1 torque1 forces old1 Hb1 Hsize Hold1).
  rewrite (AddInTorque_Bound _ _ _ _ context2 torque2 forces old2 Hb2 Hsize Hold2).
  cbn [fst].
  set (forces1 := mkMultibodyForces
                    (<[i1 := scalar_add old1 torque1]> (generalized_forces forces))).
  set (forces2 := mkMultibodyForces
                    (<[i2 := scalar_add old2 torque2]> (generalized_forces forces))).
  assert (Hsize1 : CheckHasRightSizeForModel forces1 tree = true).
  { unfold forces1. rewrite CheckHasRightSizeForModel_insert. exact Hsize. }
  assert (Hsize2 : CheckHasRightSizeForModel forces2 tree = true).
  { unfold forces2. rewrite CheckHasRightSizeForModel_insert. exact Hsize. }
  assert (Hold21 : generalized_forces forces1 !! i2 = Some old2).
  { unfold forces1. simpl. rewrite list_lookup_insert_ne by exact Hne. exact Hold2. }
  assert (Hold12 : generalized_forces forces2 !! i1 = Some old1).
  { unfold forces2. simpl.
    rewrite list_lookup_insert_ne by (intros Heq; apply Hne; symmetry; exact Heq).
    exact Hold1. }
  rewrite (AddInTorque_Bound _ _ _ _ context2 torque2 forces1 old2 Hb2 Hsize1 Hold21).
  rewrite (AddInTorque_Bound _ _ _ _ context1 torque1 forces2 old1 Hb1 Hsize2 Hold12).
  eexists. split; [ reflexivity | ].
  unfold forces1, forces2. simpl. fold i1 i2.
  rewrite list_insert_insert_ne by exact Hne. reflexivity.
Qed.

End SeveralInjections.

Lemma AddInTorque_each_accumulates_witness :
  exists forces',
    AddInTorque_each (Example.knee double) Leg.rest [1.5; 2.25; -1]%float
      (Some Leg.loaded_forces)
    = (Some forces', Ok tt)
    /\ generalized_forces forces' !! velocities_start Example.knee_topology
       = Some (fold_left scalar_add [1.5; 2.25; -1]%float 0.25%float)
    /\ (forall k, k <> velocities_start Example.knee_topology ->
          generalized_forces forces' !! k
          = generalized_forces Leg.loaded_forces !! k)
    /\ CheckHasRightSizeForModel forces' Example.leg = true.
Proof.
  apply (AddInTorque_each_accumulates (Example.knee double) Example.leg
           Example.knee_mobilizer Example.knee_topology).
  - unfold Bound. simpl. repeat split; lia.
  - reflexivity.
  - reflexivity.
Defined.

Lemma AddInTorque_two_joints_commute_witness :
  exists forces',
    AddInTorque (Example.knee double) Leg.rest 2.25%float
      (AddInTorque (Leg.hip double) Leg.rest 1.5%float (Some Leg.loaded_forces)).1
    = (Some forces', Ok tt)
    /\ AddInTorque (Leg.hip double) Leg.rest 1.5%float
         (AddInTorque (Example.knee double) Leg.rest 2.25%float
            (Some Leg.loaded_forces)).1
       = (Some forces', Ok tt).
Proof.
  apply (AddInTorque_two_joints_commute (Leg.hip double) (Example.knee double)
           Example.leg Leg.hip_mobilizer Example.knee_mobilizer
           Leg.hip_topology Example.knee_topology).
  - unfold Bound. simpl. repeat split; lia.
  - unfold Bound. simpl. repeat split; lia.
  - simpl. lia.
  - reflexivity.
Defined.

(** ** Angle and rate together *)

Section AngleAndRate.
Context {T : Type}.
Implicit Types (j : RevoluteJoint T) (q v : list T).

Lemma set_angular_rate_Bound j tree m topology q v theta_dot :
  Bound j tree m topology ->
  length v = num_velocities tree ->
  set_angular_rate j theta_dot (MultibodyTreeContext q v)
  = (MultibodyTreeContext q (<[velocities_start topology := theta_dot]> v), Ok j).
Proof.
  intros Hb Hv. pose proof Hb as (_ & _ & Htop & _ & Hlt).
  unfold set_angular_rate. unfold_methods.
  rewrite (get_mobilizer_Bound _ _ _ _ Hb).
  unfold RevoluteMobilizer_set_angular_rate. rewrite Htop.
  rewrite bool_decide_eq_true_2 by lia. reflexivity.
Qed.

Lemma get_angular_rate_Bound j tree m topology q v :
  Bound j tree m topology ->
  get_angular_rate j (MultibodyTreeContext q v)
  = match v !! velocities_start topology with
    | Some theta_dot => Ok theta_dot
    | None => Abort SizeMismatch
    end.
Proof.
  intros Hb. pose proof Hb as (_ & _ & Htop & _).
  unfold get_angular_rate, Result_bind.
  rewrite (get_mobilizer_Bound _ _ _ _ Hb).
  unfold RevoluteMobilizer_get_angular_rate. rewrite Htop. reflexivity.
Qed.

(** X7: on a bound joint and a context of its tree, setting the angle and
    setting the rate can be chained on the joint that each setter returns,
    in either order, with the same final context; both values are then read
    back; and a second [set_angle] replaces the first. *)
Theorem setters_chain_and_commute j tree m topology q v angle angle' theta_dot :
  Bound j tree m topology ->
  length q = num_positions tree ->
  length v = num_velocities tree ->
  let context := MultibodyTreeContext q v in
  let final := MultibodyTreeContext (<[positions_start topology := angle]> q)
                 (<[velocities_start topology := theta_dot]> v) in
  (j' <- set_angle j angle ;; set_angular_rate j' theta_dot)%method context
  = (final, Ok j)
  /\ (j' <- set_angular_rate j theta_dot ;; set_angle j' angle)%method context
     = (final, Ok j)
  /\ get_angle j final = Ok angle
  /\ get_angular_rate j final = Ok theta_dot
  /\ (j' <- set_angle j angle' ;; set_angle j' angle)%method context
     = set_angle j angle context.
Proof.
  intros Hb Hq Hv context final. unfold context, final.
  pose proof Hb as (_ & _ & _ & Hltq & Hltv).
  unfold M_bind.
  repeat (first
            [ rewrite (set_angle_Bound j tree m topology _ _ _ Hb)
                by (rewrite ?length_insert; exact Hq)
            | rewrite (set_angular_rate_Bound j tree m topology _ _ _ Hb)
                by (rewrite ?length_insert; exact Hv) ];
          cbv beta iota).
  rewrite (get_angle_Bound _ _ _ _ _ _ Hb), (get_angular_rate_Bound _ _ _ _ _ _ Hb).
  rewrite !list_lookup_insert_eq by lia.
  rewrite list_insert_insert_eq.
  repeat split.
Qed.

End AngleAndRate.

Lemma setters_chain_and_commute_witness :
  let context := MultibodyTreeContext [0; 0]%float [0; 0]%float in
  let final :=
    MultibodyTreeContext
      (<[positions_start Example.knee_topology := 1.5%float]> [0; 0]%float)
      (<[velocities_start Example.knee_topology := 1%float]> [0; 0]%float) in
  (j' <- set_angle (Example.knee double) 1.5%float ;;
   set_angular_rate j' 1%float)%method context
  = (final, Ok (Example.knee double))
  /\ (j' <- set_angular_rate (Example.knee double) 1%float ;;
      set_angle j' 1.5%float)%method context
     = (final, Ok (Example.knee double))
  /\ get_angle (Example.knee double) final = Ok 1.5%float
  /\ get_angular_rate (Example.knee double) final = Ok 1%float
  /\ (j' <- set_angle (Example.knee double) 0.5%float ;;
      set_angle j' 1.5%float)%method context
     = set_angle (Example.knee double) 1.5%float context.
Proof.
  apply (setters_chain_and_commute (Example.knee double) Example.leg
           Example.knee_mobilizer Example.knee_topology).
  - unfold Bound. simpl. repeat split; lia.
  - reflexivity.
  - reflexivity.
Defined.

Lemma set_angular_rate_get_angular_rate_roundtrip_witness :
  set_angular_rate (Example.knee double) 1%float
    (MultibodyTreeContext [0; 0.5] [0; 0])%float
  = (MultibodyTreeContext [0; 0.5]%float
       (<[velocities_start Example.knee_topology := 1%float]> [0; 0]%float),
     Ok (Example.knee double))
  /\ get_angular_rate (Example.knee double)
       (MultibodyTreeContext [0; 0.5]%float
          (<[velocities_start Example.knee_topology := 1%float]> [0; 0]%float))
     = Ok 1%float
  /\ get_angle (Example.knee double)
       (MultibodyTreeContext [0; 0.5]%float
          (<[velocities_start Example.knee_topology := 1%float]> [0; 0]%float))
     = get_angle (Example.knee double) (MultibodyTreeContext [0; 0.5] [0; 0])%float.
Proof.
  apply (set_angular_rate_get_angular_rate_roundtrip (Example.knee double)
           Example.leg Example.knee_mobilizer Example.knee_topology).
  - unfold Bound. simpl. repeat split; lia.
  - reflexivity.
Defined.

(** ** From construction to a bound joint *)

(** X9: a joint that the constructor returns is unbound and owned by no
    tree, so its accessors abort; binding it with its own blueprint makes it
    bound to a revolute mobilizer that carries the constructor's two frames
    and the normalized axis, which is what [get_mobilizer] then returns:
    the blueprint always passes the two demands of [get_mobilizer].  Binding
    keeps name, frames and axis, and binding a second time changes nothing. *)
Theorem constructed_joint_lifecycle (T : Type) (name : string)
    (frame_on_parent frame_on_child : Frame) (axis : Vector3 double)
    (j : RevoluteJoint T) (tree tree' : MultibodyTree)
    (topology topology' : MobilizerTopology) (context : Context T) :
  RevoluteJoint_new name frame_on_parent frame_on_child axis = Ok j ->
  positions_start topology < num_positions tree ->
  velocities_start topology < num_velocities tree ->
  let m := mkRevoluteMobilizer frame_on_parent frame_on_child (normalized axis)
             (Some topology) in
  Unbound j
  /\ parent_tree_ j = None
  /\ get_angle j context = Abort UnboundAccess
  /\ Bound (Finalize tree topology j) tree m topology
  /\ get_mobilizer (Finalize tree topology j) = Ok m
  /\ get_name (Finalize tree topology j) = name
  /\ get_frame_on_parent (Finalize tree topology j) = frame_on_parent
  /\ get_frame_on_child (Finalize tree topology j) = frame_on_child
  /\ get_revolute_axis (Finalize tree topology j) = normalized axis
  /\ Finalize tree' topology' (Finalize tree topology j) = Finalize tree topology j.
Proof.
  unfold RevoluteJoint_new. destruct (negb _); [ | discriminate ].
  intros [= <-] Hq Hv. cbv zeta.
  repeat split; assumption.
Qed.

Lemma constructed_joint_lifecycle_witness :
  let m := mkRevoluteMobilizer Example.thigh_frame Example.shin_frame
             (normalized Example.z_axis) (Some Example.knee_topology) in
  Unbound (Example.knee_unbound double)
  /\ parent_tree_ (Example.knee_unbound double) = None
  /\ get_angle (Example.knee_unbound double) Leg.rest = Abort UnboundAccess
  /\ Bound (Finalize Example.leg Example.knee_topology (Example.knee_unbound double))
       Example.leg m Example.knee_topology
  /\ get_mobilizer
       (Finalize Example.leg Example.knee_topology (Example.knee_unbound double))
     = Ok m
  /\ get_name
       (Finalize Example.leg Example.knee_topology (Example.knee_unbound double))
     = "knee"
  /\ get_frame_on_parent
       (Finalize Example.leg Example.knee_topology (Example.knee_unbound double))
     = Example.thigh_frame
  /\ get_frame_on_child
       (Finalize Example.leg Example.knee_topology (Example.knee_unbound double))
     = Example.shin_frame
  /\ get_revolute_axis
       (Finalize Example.leg Example.knee_topology (Example.knee_unbound double))
     = normalized Example.z_axis
  /\ Finalize Example.leg_in_assembly Leg.hip_topology
       (Finalize Example.leg Example.knee_topology (Example.knee_unbound double))
     = Finalize Example.leg Example.knee_topology (Example.knee_unbound double).
Proof.
  apply (constructed_joint_lifecycle double "knee" Example.thigh_frame
           Example.shin_frame Example.z_axis (Example.knee_unbound double)
           Example.leg Example.leg_in_assembly Example.knee_topology
           Leg.hip_topology Leg.rest).
  - reflexivity.
  - simpl. lia.
  - simpl. lia.
Defined.

(** ** The constructor on reversed and on non-finite axes *)

(** Rounding keeps the sign it is given. *)
Lemma SFopp_binary_round_aux prec emax s m e l :
  SFopp (binary_round_aux prec emax s m e l)
  = binary_round_aux prec emax (negb s) m e l.
Proof.
  unfold binary_round_aux.
  destruct (shr_fexp prec emax m e l) as [mrs' e'].
  destruct (shr_fexp prec emax _ e' loc_Exact) as [mrs'' e''].
  destruct (shr_m mrs''); try reflexivity.
  destruct (Z.leb _ _); reflexivity.
Qed.

Lemma double_abs_opp (x : double) : abs (- x) = abs x.
Proof.
  apply Prim2SF_inj. rewrite !abs_spec, opp_spec.
  destruct (Prim2SF x); reflexivity.
Qed.

Lemma double_mul_opp_opp (x y : double) : (- x * - y = x * y)%float.
Proof.
  apply Prim2SF_inj. rewrite !mul_spec, !opp_spec.
  destruct (Prim2SF x) as [[|]|[|]| |[|] ? ?],
           (Prim2SF y) as [[|]|[|]| |[|] ? ?]; reflexivity.
Qed.

Lemma double_div_opp_l (x y : double) : (- x / y = - (x / y))%float.
Proof.
  apply Prim2SF_inj. rewrite opp_spec, !div_spec, opp_spec.
  destruct (Prim2SF x) as [sx|sx| |sx mx ex], (Prim2SF y) as [sy|sy| |sy my ey];
    try reflexivity; try (destruct sx; reflexivity);
    try (destruct sx, sy; reflexivity).
  unfold SF64div, SFdiv. cbn [SFopp].
  destruct (SFdiv_core_binary prec emax (Z.pos mx) ex (Z.pos my) ey)
    as [[mz ez] lz].
  rewrite SFopp_binary_round_aux. destruct sx, sy; reflexivity.
Qed.

Lemma isZero_opp (v : Vector3 double) (prec : double) :
  isZero (Vector3_opp v) prec = isZero v prec.
Proof.
  unfold isZero, isMuchSmallerThan, Vector3_opp. simpl.
  rewrite !double_abs_opp. reflexivity.
Qed.

Lemma squaredNorm_opp (v : Vector3 double) :
  squaredNorm (Vector3_opp v) = squaredNorm v.
Proof.
  unfold squaredNorm, Vector3_opp. simpl.
  rewrite !double_mul_opp_opp. reflexivity.
Qed.

Lemma normalized_opp (v : Vector3 double) :
  normalized (Vector3_opp v) = Vector3_opp (normalized v).
Proof.
  unfold normalized. rewrite squaredNorm_opp.
  destruct (0 <? squaredNorm v)%float; [ | reflexivity ].
  unfold Vector3_opp. simpl. rewrite !double_div_opp_l. reflexivity.
Qed.

(** X10: reversing the axis handed to the constructor changes the sign of
    the stored axis and nothing else: the reversed axis is accepted exactly
    when the axis is, and the axis stored for it is, bit for bit, the
    negation of the axis stored for the original. *)
Theorem RevoluteJoint_new_reversed_axis (T : Type) (name : string)
    (frame_on_parent frame_on_child : Frame) (axis : Vector3 double) :
  @RevoluteJoint_new T name frame_on_parent frame_on_child (Vector3_opp axis)
  = match @RevoluteJoint_new T name frame_on_parent frame_on_child axis with
    | Ok j =>
        Ok (mkRevoluteJoint (name_ j) (frame_on_parent_ j) (frame_on_child_ j)
              (parent_tree_ j) (implementation_ j)
              (Vector3_opp (get_revolute_axis j)))
    | Abort e => Abort e
    end.
Proof.
  unfold RevoluteJoint_new. rewrite isZero_opp.
  destruct (negb (isZero axis kEpsilon)); [ | reflexivity ].
  simpl. rewrite normalized_opp. reflexivity.
Qed.

(** A square is never negative, nor is a sum of two such numbers. *)
Lemma binary_round_aux_not_negative prec emax m e l :
  SFltb (binary_round_aux prec emax false m e l) (S754_zero false) = false.
Proof.
  unfold binary_round_aux.
  destruct (shr_fexp prec emax m e l) as [mrs' e'].
  destruct (shr_fexp prec emax _ e' loc_Exact) as [mrs'' e''].
  destruct (shr_m mrs''); try reflexivity.
  destruct (Z.leb _ _); reflexivity.
Qed.

Lemma double_sq_not_negative (y : double) : (y * y <? 0)%float = false.
Proof.
  rewrite ltb_spec, mul_spec. change (Prim2SF 0%float) with (S754_zero false).
  destruct (Prim2SF y) as [[|]|[|]| |[|] m e]; try reflexivity;
    apply binary_round_aux_not_negative.
Qed.

Lemma double_add_not_negative (a b : double) :
  (a <? 0)%float = false -> (b <? 0)%float = false -> (a + b <? 0)%float = false.
Proof.
  rewrite !ltb_spec, add_spec. change (Prim2SF 0%float) with (S754_zero false).
  destruct (Prim2SF a) as [[|]|[|]| |[|] ma ea],
           (Prim2SF b) as [[|]|[|]| |[|] mb eb];
    try reflexivity; try discriminate.
  intros _ _. unfold SF64add, SFadd, cond_Zopp.
  destruct (shl_align ma ea _) as [ma' ea'], (shl_align mb eb _) as [mb' eb'].
  simpl. unfold binary_round.
  destruct (shl_align _ _ _) as [mz ez].
  apply binary_round_aux_not_negative.
Qed.

(** A sum of two numbers that are not negative, one of them a NaN or
    [+infinity], is a NaN or [+infinity]. *)
Lemma double_add_not_finite (a b : double) :
  (a <? 0)%float = false -> (b <? 0)%float = false ->
  a = nan \/ a = infinity \/ b = nan \/ b = infinity ->
  (a + b)%float = nan \/ (a + b)%float = infinity.
Proof.
  rewrite !ltb_spec. change (Prim2SF 0%float) with (S754_zero false).
  intros Ha Hb Hab.
  assert (Hsf : Prim2SF (a + b) = S754_nan
                \/ Prim2SF (a + b) = S754_infinity false).
  { rewrite add_spec.
    destruct Hab as [-> | [-> | [-> | ->]]];
      [ change (Prim2SF nan) with S754_nan
      | change (Prim2SF infinity) with (S754_infinity false)
      | change (Prim2SF nan) with S754_nan
      | change (Prim2SF infinity) with (S754_infinity false) ];
      [ destruct (Prim2SF b) as [[|]|[|]| |[|] mb eb]
      | destruct (Prim2SF b) as [[|]|[|]| |[|] mb eb]
      | destruct (Prim2SF a) as [[|]|[|]| |[|] ma ea]
      | destruct (Prim2SF a) as [[|]|[|]| |[|] ma ea] ];
      try discriminate; auto. }
  destruct Hsf as [Hsf | Hsf]; [ left | right ];
    apply Prim2SF_inj; rewrite Hsf; reflexivity.
Qed.

Lemma double_sq_not_finite (y : double) :
  not_finite y -> (y * y)%float = nan \/ (y * y)%float = infinity.
Proof. intros [-> | [-> | ->]]; [ left | right | right ]; reflexivity. Qed.

(** The squared norm of a vector with a non-finite component. *)
Lemma squaredNorm_not_finite (v : Vector3 double) :
  not_finite (vx v) \/ not_finite (vy v) \/ not_finite (vz v) ->
  squaredNorm v = nan \/ squaredNorm v = infinity.
Proof.
  intros Hv. unfold squaredNorm.
  pose proof (double_sq_not_negative (vx v)) as Hx.
  pose proof (double_sq_not_negative (vy v)) as Hy.
  pose proof (double_sq_not_negative (vz v)) as Hz.
  pose proof (double_add_not_negative _ _ Hx Hy) as Hxy.
  destruct Hv as [Hv | [Hv | Hv]]; apply double_sq_not_finite in Hv.
  - apply (double_add_not_finite _ _ Hxy Hz).
    destruct (double_add_not_finite _ _ Hx Hy) as [-> | ->]; [ tauto | auto | auto ].
  - apply (double_add_not_finite _ _ Hxy Hz).
    destruct (double_add_not_finite _ _ Hx Hy) as [-> | ->]; [ tauto | auto | auto ].
  - apply (double_add_not_finite _ _ Hxy Hz). tauto.
Qed.

Lemma isZero_not_finite (v : Vector3 double) :
  not_finite (vx v) \/ not_finite (vy v) \/ not_finite (vz v) ->
  isZero v kEpsilon = false.
Proof.
  rewrite isZero_kEpsilon.
  intros [[-> | [-> | ->]] | [[-> | [-> | ->]] | [-> | [-> | ->]]]];
    change (abs nan <=? kEpsilon)%float with false;
    change (abs infinity <=? kEpsilon)%float with false;
    change (abs neg_infinity <=? kEpsilon)%float with false;
    rewrite ?andb_false_r; reflexivity.
Qed.

Lemma double_div_infinity_not_finite (x : double) :
  not_finite x -> (x / infinity)%float = nan.
Proof. intros [-> | [-> | ->]]; reflexivity. Qed.

(** X11: an axis with a NaN or an infinite component is not rejected: the
    constructor succeeds, and every such component is again a NaN or an
    infinity in the axis the joint stores and returns. *)
Theorem RevoluteJoint_new_not_finite_axis (T : Type) (name : string)
    (frame_on_parent frame_on_child : Frame) (axis : Vector3 double) :
  not_finite (vx axis) \/ not_finite (vy axis) \/ not_finite (vz axis) ->
  exists j : RevoluteJoint T,
    RevoluteJoint_new name frame_on_parent frame_on_child axis = Ok j
    /\ (not_finite (vx axis) -> not_finite (vx (get_revolute_axis j)))
    /\ (not_finite (vy axis) -> not_finite (vy (get_revolute_axis j)))
    /\ (not_finite (vz axis) -> not_finite (vz (get_revolute_axis j))).
Proof.
  intros Haxis. unfold RevoluteJoint_new.
  rewrite (isZero_not_finite axis Haxis). simpl.
  eexists. split; [ reflexivity | ].
  unfold get_revolute_axis. simpl. unfold normalized.
  destruct (squaredNorm_not_finite axis Haxis) as [-> | ->].
  - change (0 <? nan)%float with false. cbv beta iota zeta. auto.
  - change (0 <? infinity)%float with true.
    change (PrimFloat.sqrt infinity) with infinity.
    cbv beta iota zeta. simpl.
    repeat split; intros Hc; rewrite (double_div_infinity_not_finite _ Hc);
      left; reflexivity.
Qed.

Lemma RevoluteJoint_new_not_finite_axis_witness :
  exists j : RevoluteJoint double,
    RevoluteJoint_new "knee" Example.thigh_frame Example.shin_frame
      (mkVector3 infinity 0%float nan) = Ok j
    /\ (not_finite (vx (mkVector3 infinity 0%float nan)) ->
        not_finite (vx (get_revolute_axis j)))
    /\ (not_finite (vy (mkVector3 infinity 0%float nan)) ->
        not_finite (vy (get_revolute_axis j)))
    /\ (not_finite (vz (mkVector3 infinity 0%float nan)) ->
        not_finite (vz (get_revolute_axis j))).
Proof.
  apply (RevoluteJoint_new_not_finite_axis double "knee" Example.thigh_frame
           Example.shin_frame (mkVector3 infinity 0%float nan)).
  left. right. left. reflexivity.
Defined.

(** * The plan evaluator's time segment *)

Module AtlasPlanEvalFacts.
Import AtlasPlanEval.

Lemma find_last_le_None (ts : list double) (t : double) :
  find_last_le ts t = None ->
  forall (i : nat) (knot : double),
    ts !! i = Some knot -> (knot <=? t)%float = false.
Proof.
  induction ts as [ | knot0 ts IH]; simpl; intros Hfind i knot Hi.
  - rewrite lookup_nil in Hi. discriminate.
  - destruct (find_last_le ts t) as [ind | ] eqn:Hrest; [ discriminate | ].
    destruct (knot0 <=? t)%float eqn:Hle; [ discriminate | ].
    destruct i as [ | i]; simpl in Hi.
    + injection Hi as <-. exact Hle.
    + exact (IH eq_refl i knot Hi).
Qed.

Lemma find_last_le_Some (ts : list double) (t : double) (ind : nat) :
  find_last_le ts t = Some ind ->
  exists (k : nat) (knot : double),
    ind = S k
    /\ ts !! k = Some knot
    /\ (knot <=? t)%float = true
    /\ forall (i : nat) (later : double),
         k < i -> ts !! i = Some later -> (later <=? t)%float = false.
Proof.
  revert ind. induction ts as [ | knot0 ts IH]; simpl; intros ind Hfind;
    [ discriminate | ].
  destruct (find_last_le ts t) as [ind' | ] eqn:Hrest.
  - injection Hfind as <-.
    destruct (IH ind' eq_refl) as (k & knot & -> & Hk & Hle & Hlast).
    exists (S k), knot. repeat split; try assumption.
    intros [ | i] later Hlt Hi; [ lia | ].
    simpl in Hi. apply (Hlast i later); [ lia | exact Hi ].
  - destruct (knot0 <=? t)%float eqn:Hle; [ | discriminate ].
    injection Hfind as <-.
    exists 0, knot0. repeat split; try assumption.
    intros [ | i] later Hlt Hi; [ lia | ].
    simpl in Hi. exact (find_last_le_None ts t Hrest i later Hi).
Qed.

Lemma range_pair (ts : list double) (k : nat) (a b : double) :
  ts !! k = Some a -> ts !! S k = Some b -> range ts (S k) (S k + 1) = [a; b].
Proof.
  intros Ha Hb. unfold range.
  replace (S (S k + 1) - S k) with 2 by lia.
  replace (S k - 1) with k by lia.
  rewrite (drop_S _ _ _ Ha), (drop_S _ _ _ Hb). reflexivity.
Qed.

(** X12: the two knot times that [tick] stores for a tracked body.  Either
    no knot is [<= t] (also when there is no knot at all) and the stored
    array is empty; or the stored pair is a knot [a <= t] and the knot [b]
    that follows it, and no knot from [b] on is [<= t]; or [a] is the last
    knot, [a <= t], and the stored pair is the degenerate segment [a, a]. *)
Theorem bodies_data_ts_cases (ts : list double) (t : double) :
  (bodies_data_ts ts t = []
   /\ forall (i : nat) (knot : double),
        ts !! i = Some knot -> (knot <=? t)%float = false)
  \/ (exists (k : nat) (a b : double),
        ts !! k = Some a /\ ts !! S k = Some b
        /\ bodies_data_ts ts t = [a; b]
        /\ (a <=? t)%float = true
        /\ forall (i : nat) (later : double),
             k < i -> ts !! i = Some later -> (later <=? t)%float = false)
  \/ (exists a : double,
        last ts = Some a
        /\ bodies_data_ts ts t = [a; a]
        /\ (a <=? t)%float = true).
Proof.
  unfold bodies_data_ts.
  destruct (find_last_le ts t) as [ind | ] eqn:Hfind.
  - destruct (find_last_le_Some ts t ind Hfind) as (k & a & -> & Hk & Hle & Hlast).
    apply lookup_lt_Some in Hk as Hlen.
    destruct (S k <? length ts)%nat eqn:Hin.
    + apply Nat.ltb_lt in Hin.
      destruct (lookup_lt_is_Some_2 ts (S k) Hin) as [b Hb].
      right; left. exists k, a, b.
      rewrite (range_pair ts k a b Hk Hb). auto.
    + apply Nat.ltb_ge in Hin.
      right; right. exists a. unfold at_index. cbv beta iota. rewrite Hk.
      split; [ | auto ].
      rewrite last_lookup. replace (pred (length ts)) with k by lia. exact Hk.
  - left. split; [ reflexivity | exact (find_last_le_None ts t Hfind) ].
Qed.

(** Three times around the knots 0, 1, 2. *)
Example bodies_data_ts_knots :
  bodies_data_ts [0; 1; 2]%float 0.5%float = [0; 1]%float
  /\ bodies_data_ts [0; 1; 2]%float 2.5%float = [2; 2]%float
  /\ bodies_data_ts [0; 1; 2]%float (-1)%float = [].
Proof. repeat split; reflexivity. Qed.

End AtlasPlanEvalFacts.

(** ** The axis is a plain [double] vector for every scalar *)

(** How the accessors of a joint bound to the mobilizer of its own
    blueprint read and write a context. *)
Lemma Finalize_new_get_mobilizer (T : Type) (name : string)
    (frame_on_parent frame_on_child : Frame) (axis : Vector3 double)
    (j : RevoluteJoint T) (tree : MultibodyTree) (topology : MobilizerTopology) :
  RevoluteJoint_new name frame_on_parent frame_on_child axis = Ok j ->
  get_mobilizer (Finalize tree topology j)
  = Ok (mkRevoluteMobilizer frame_on_parent frame_on_child (normalized axis)
          (Some topology))
  /\ parent_tree_ (Finalize tree topology j) = Some tree
  /\ get_revolute_axis j = normalized axis
  /\ get_revolute_axis (Finalize tree topology j) = normalized axis.
Proof.
  unfold RevoluteJoint_new. destruct (negb _); [ | discriminate ].
  intros [= <-]. repeat split.
Qed.

(** C9: take joints over any two scalar types [T1] and [T2] ([double] and
    [AutoDiffXd] are the two the header names) that the constructor builds
    from the same arguments, unbound or bound to the same slot of the same
    tree.  Their [get_revolute_axis] returns one and the same
    [Vector3 double], the normalized axis, with no change of scalar applied
    to it.  The state-dependent quantities are scalars: under any map [f]
    from [T1] to [T2], the angle and the rate that the joint over [T2] reads
    from the mapped context are the images under [f] of what the joint over
    [T1] reads, writing the image of an angle or a rate leaves the image of
    the context, and, when [f] maps sums to sums, injecting the image of a
    torque leaves the image of the accumulator. *)
Theorem get_revolute_axis_scalar_independent (T1 T2 : Type) (name : string)
    (frame_on_parent frame_on_child : Frame) (axis : Vector3 double)
    (j1 : RevoluteJoint T1) (j2 : RevoluteJoint T2)
    (tree : MultibodyTree) (topology : MobilizerTopology) :
  RevoluteJoint_new name frame_on_parent frame_on_child axis = Ok j1 ->
  RevoluteJoint_new name frame_on_parent frame_on_child axis = Ok j2 ->
  let bound1 := Finalize tree topology j1 in
  let bound2 := Finalize tree topology j2 in
  (get_revolute_axis j1 : Vector3 double) = normalized axis
  /\ (get_revolute_axis j2 : Vector3 double) = normalized axis
  /\ (get_revolute_axis bound1 : Vector3 double) = normalized axis
  /\ (get_revolute_axis bound2 : Vector3 double) = normalized axis
  /\ (forall (f : T1 -> T2) (context : Context T1) (x : T1),
        get_angle bound2 (Context_map f context)
        = Result_map f (get_angle bound1 context)
        /\ get_angular_rate bound2 (Context_map f context)
           = Result_map f (get_angular_rate bound1 context)
        /\ set_angle bound2 (f x) (Context_map f context)
           = (Context_map f (set_angle bound1 x context).1,
              Result_map (fun _ => bound2) (set_angle bound1 x context).2)
        /\ set_angular_rate bound2 (f x) (Context_map f context)
           = (Context_map f (set_angular_rate bound1 x context).1,
              Result_map (fun _ => bound2) (set_angular_rate bound1 x context).2))
  /\ (forall (S1 : Scalar T1) (S2 : Scalar T2) (f : T1 -> T2),
        (forall a b : T1,
           f (@scalar_add T1 S1 a b) = @scalar_add T2 S2 (f a) (f b)) ->
        forall (context1 : Context T1) (context2 : Context T2) (torque : T1)
               (forces : option (MultibodyForces T1)),
          @AddInTorque T2 S2 bound2 context2 (f torque)
            (MultibodyForces_map f <$> forces)
          = (MultibodyForces_map f
               <$> (@AddInTorque T1 S1 bound1 context1 torque forces).1,
             (@AddInTorque T1 S1 bound1 context1 torque forces).2)).
Proof.
  intros Hnew1 Hnew2 bound1 bound2.
  destruct (Finalize_new_get_mobilizer T1 name frame_on_parent frame_on_child
              axis j1 tree topology Hnew1) as (Hm1 & Htree1 & Haxis1 & Hbaxis1).
  destruct (Finalize_new_get_mobilizer T2 name frame_on_parent frame_on_child
              axis j2 tree topology Hnew2) as (Hm2 & Htree2 & Haxis2 & Hbaxis2).
  fold bound1 in Hm1, Htree1, Hbaxis1. fold bound2 in Hm2, Htree2, Hbaxis2.
  do 4 (split; [ assumption | ]).
  split.
  - intros f context x.
    unfold get_angle, get_angular_rate, set_angle, set_angular_rate.
    unfold_methods. rewrite Hm1, Hm2.
    unfold RevoluteMobilizer_get_angle, RevoluteMobilizer_get_angular_rate,
      RevoluteMobilizer_set_angle, RevoluteMobilizer_set_angular_rate.
    destruct context as [q v | other]; cbn [Context_map topology_];
      [ | repeat split ].
    rewrite !list_lookup_fmap, !length_fmap.
    repeat split.
    + destruct (q !! positions_start topology); reflexivity.
    + destruct (v !! velocities_start topology); reflexivity.
    + case_bool_decide; cbn [fst snd Context_map Result_map];
        [ rewrite list_fmap_insert | ]; reflexivity.
    + case_bool_decide; cbn [fst snd Context_map Result_map];
        [ rewrite list_fmap_insert | ]; reflexivity.
  - intros S1 S2 f Hf context1 context2 torque [forces | ]; [ | reflexivity ].
    cbn [fmap option_fmap option_map].
    rewrite !AddInTorque_cases, Htree1, Htree2.
    unfold CheckHasRightSizeForModel, MultibodyForces_map.
    cbn [generalized_forces]. rewrite length_fmap.
    case_bool_decide; [ | reflexivity ].
    rewrite !DoAddInOneForce_cases, Hm1, Hm2. cbn [topology_ generalized_forces].
    rewrite list_lookup_fmap.
    destruct (generalized_forces forces !! velocities_start topology) as [old | ];
      cbn [fmap option_fmap option_map fst snd generalized_forces];
      [ | reflexivity ].
    rewrite list_fmap_insert, Hf. reflexivity.
Qed.

Lemma get_revolute_axis_scalar_independent_witness :
  let bound1 :=
    Finalize Example.leg Example.knee_topology (Example.knee_unbound double) in
  let bound2 :=
    Finalize Example.leg Example.knee_topology (Example.knee_unbound AutoDiffXd) in
  (get_revolute_axis (Example.knee_unbound double) : Vector3 double)
  = normalized Example.z_axis
  /\ (get_revolute_axis (Example.knee_unbound AutoDiffXd) : Vector3 double)
     = normalized Example.z_axis
  /\ (get_revolute_axis bound1 : Vector3 double) = normalized Example.z_axis
  /\ (get_revolute_axis bound2 : Vector3 double) = normalized Example.z_axis
  /\ (forall (f : double -> AutoDiffXd) (context : Context double) (x : double),
        get_angle bound2 (Context_map f context)
        = Result_map f (get_angle bound1 context)
        /\ get_angular_rate bound2 (Context_map f context)
           = Result_map f (get_angular_rate bound1 context)
        /\ set_angle bound2 (f x) (Context_map f context)
           = (Context_map f (set_angle bound1 x context).1,
              Result_map (fun _ => bound2) (set_angle bound1 x context).2)
        /\ set_angular_rate bound2 (f x) (Context_map f context)
           = (Context_map f (set_angular_rate bound1 x context).1,
              Result_map (fun _ => bound2) (set_angular_rate bound1 x context).2))
  /\ (forall (S1 : Scalar double) (S2 : Scalar AutoDiffXd)
             (f : double -> AutoDiffXd),
        (forall a b : double,
           f (@scalar_add double S1 a b) = @scalar_add AutoDiffXd S2 (f a) (f b)) ->
        forall (context1 : Context double) (context2 : Context AutoDiffXd)
               (torque : double) (forces : option (MultibodyForces double)),
          @AddInTorque AutoDiffXd S2 bound2 context2 (f torque)
            (MultibodyForces_map f <$> forces)
          = (MultibodyForces_map f
               <$> (@AddInTorque double S1 bound1 context1 torque forces).1,
             (@AddInTorque double S1 bound1 context1 torque forces).2)).
Proof.
  apply (get_revolute_axis_scalar_independent double AutoDiffXd "knee"
           Example.thigh_frame Example.shin_frame Example.z_axis);
    reflexivity.
Defined.

